(** * teams-notify-bot: collection, selection and notification pipeline

    A shallow embedding of [src/teams-notify-bot.py] and the properties of
    its specification.

    Python values are modelled as follows.
    - A [str] is the list of its Unicode code points ([N]), so that [len],
      slicing and [find] count characters exactly as Python does.
    - A value produced by [json.loads] (and the payload handed to
      [requests.post]) is a [pyval]; a [dict] keeps its insertion order.
    - An exception is a value of [exn]; a computation that may raise returns
      an [outcome].
    - The external services (feedparser, DynamoDB, Bedrock, the Teams
      webhook) are the fields of a [World]; the calls made to them are
      recorded in a trace. *)

From Stdlib Require Import ZArith NArith List String Ascii Bool Lia.
From Stdlib Require Import DecimalString DecimalNat.
From stdpp Require Import base decidable option list gmap sets.

Open Scope N_scope.
Open Scope list_scope.

(** ** Python strings *)

Abbreviation str := (list N).

(** An ASCII literal as a Python string. *)
Definition lit (s : string) : str :=
  List.map N_of_ascii (list_ascii_of_string s).

(** The same, with every apostrophe of the literal standing for a double
    quote (JSON texts are written this way below). *)
Definition dq (s : string) : str :=
  List.map (fun c => if c =? 39 then 34 else c) (lit s).

Fixpoint str_eqb (a b : str) : bool :=
  match a, b with
  | [], [] => true
  | x :: a', y :: b' => (x =? y) && str_eqb a' b'
  | _, _ => false
  end.

(** [s.find(c)] for a one-character [c]: the lowest index, or -1. *)
Fixpoint py_find (c : N) (s : str) : Z :=
  match s with
  | [] => (-1)%Z
  | x :: r =>
      if x =? c then 0%Z
      else let i := py_find c r in
           if (i <? 0)%Z then (-1)%Z else (i + 1)%Z
  end.

(** [s.rfind(c)] for a one-character [c]: the highest index, or -1. *)
Fixpoint py_rfind (c : N) (s : str) : Z :=
  match s with
  | [] => (-1)%Z
  | x :: r =>
      let i := py_rfind c r in
      if (0 <=? i)%Z then (i + 1)%Z
      else if x =? c then 0%Z else (-1)%Z
  end.

(** Index normalisation of a slice bound, as [PySlice_AdjustIndices] does
    for step 1. *)
Definition slice_bound (len i : Z) : Z :=
  if (i <? 0)%Z then Z.max 0 (len + i) else Z.min i len.

(** [s[lo:hi]]. *)
Definition py_slice {A : Type} (s : list A) (lo hi : Z) : list A :=
  let len := Z.of_nat (length s) in
  let lo' := slice_bound len lo in
  let hi' := slice_bound len hi in
  firstn (Z.to_nat (hi' - lo')) (skipn (Z.to_nat lo') s).

(** [sep.join(parts)] for a list of strings. *)
Fixpoint str_join (sep : str) (parts : list str) : str :=
  match parts with
  | [] => []
  | [p] => p
  | p :: rest => p ++ sep ++ str_join sep rest
  end.

(** [str.isspace] on one character (the white space of [str.strip()]). *)
Definition py_isspace (c : N) : bool :=
  ((9 <=? c) && (c <=? 13)) || ((28 <=? c) && (c <=? 32))
  || (c =? 133) || (c =? 160) || (c =? 5760)
  || ((8192 <=? c) && (c <=? 8202))
  || (c =? 8232) || (c =? 8233) || (c =? 8239) || (c =? 8287)
  || (c =? 12288).

Fixpoint lstrip (s : str) : str :=
  match s with
  | c :: r => if py_isspace c then lstrip r else s
  | [] => []
  end.

(** [s.strip()]. *)
Definition py_strip (s : str) : str :=
  rev (lstrip (rev (lstrip s))).

(** [s.split(',')]: always at least one field. *)
Fixpoint py_split_comma (s : str) : list str :=
  match s with
  | [] => [[]]
  | c :: r =>
      match py_split_comma r with
      | [] => [[]]
      | f :: fs => if c =? 44 then [] :: f :: fs else (c :: f) :: fs
      end
  end.

(** [str(n)] for a non-negative [int]. *)
Definition str_of_nat (n : nat) : str :=
  lit (NilEmpty.string_of_uint (Nat.to_uint n)).

(** ** Exceptions and outcomes *)

Inductive exn : Type :=
| JSONDecodeError
| TypeError
| KeyError
| IndexError
| AttributeError
| ValueError          (* not a JSONDecodeError, which is modelled apart *)
| RecursionError
| UnicodeDecodeError
| ConnectionError     (* requests.ConnectionError, Timeout, ...: RequestException *)
| HTTPError           (* raised by raise_for_status: RequestException *)
| ClientError         (* botocore errors *)
| OtherError (tag : str).

(** [isinstance(e, requests.RequestException)]. *)
Definition is_RequestException (e : exn) : bool :=
  match e with
  | ConnectionError | HTTPError => true
  | _ => false
  end.

(** [isinstance(e, json.JSONDecodeError)]. *)
Definition is_JSONDecodeError (e : exn) : bool :=
  match e with
  | JSONDecodeError => true
  | _ => false
  end.

Inductive outcome (A : Type) : Type :=
| Returns (a : A)
| Raises (e : exn).
Arguments Returns {A} a.
Arguments Raises {A} e.

(** ** JSON values *)

Set Warnings "-register-all".

Inductive pyval : Type :=
| PNone
| PBool (b : bool)
| PNum (lexeme : str)       (* an int or a float, kept as it was written *)
| PStr (s : str)
| PList (l : list pyval)
| PDict (d : list (str * pyval)).

Fixpoint dict_get (k : str) (d : list (str * pyval)) : option pyval :=
  match d with
  | [] => None
  | (k', v) :: r => if str_eqb k k' then Some v else dict_get k r
  end.

(** [d[k] = v]: an existing key keeps its position. *)
Fixpoint dict_set (k : str) (v : pyval) (d : list (str * pyval))
  : list (str * pyval) :=
  match d with
  | [] => [(k, v)]
  | (k', v') :: r =>
      if str_eqb k k' then (k, v) :: r else (k', v') :: dict_set k v r
  end.

(** [dict(pairs)]. *)
Definition dict_of_pairs (pairs : list (str * pyval))
  : list (str * pyval) :=
  fold_left (fun d kv => dict_set (fst kv) (snd kv) d) pairs [].

(** ** [json.loads]

    The decoder of the standard library ([json/decoder.py],
    [json/scanner.py] and their C twins), on the remaining input instead of
    an index.  It fails in three ways: [JSONDecodeError] on a text that is
    not JSON, [ValueError] when [int] refuses an integer with more digits
    than [sys.get_int_max_str_digits()] (4300 unless configured; 0 means no
    limit), and [RecursionError] when arrays and objects are nested deeper
    than the interpreter's stack has room for.  The two limits belong to
    the interpreter that runs the program, so they are arguments here.
    [PFuel] is never the result of [json_loads] ([json_decode_fuel]
    below). *)

Inductive presult (A : Type) : Type :=
| POk (a : A) (rest : str)
| PErr (e : exn)
| PFuel.
Arguments POk {A} a rest.
Arguments PErr {A} e.
Arguments PFuel {A}.

(** [WHITESPACE]: space, tab, line feed, carriage return. *)
Definition is_ws (c : N) : bool :=
  (c =? 32) || (c =? 9) || (c =? 10) || (c =? 13).

Fixpoint skip_ws (s : str) : str :=
  match s with
  | c :: r => if is_ws c then skip_ws r else s
  | [] => []
  end.

Definition is_digit (c : N) : bool := (48 <=? c) && (c <=? 57).

Definition hex_value (c : N) : option N :=
  if (48 <=? c) && (c <=? 57) then Some (c - 48)
  else if (97 <=? c) && (c <=? 102) then Some (c - 87)
  else if (65 <=? c) && (c <=? 70) then Some (c - 55)
  else None.

(** The four hexadecimal digits of a [\uXXXX] escape. *)
Definition hex4 (a b c d : N) : option N :=
  match hex_value a, hex_value b, hex_value c, hex_value d with
  | Some x, Some y, Some z, Some w => Some (((x * 16 + y) * 16 + z) * 16 + w)
  | _, _, _, _ => None
  end.

(** [BACKSLASH]: the one-character escapes. *)
Definition backslash (c : N) : option N :=
  if c =? 34 then Some 34          (* quote *)
  else if c =? 92 then Some 92     (* backslash *)
  else if c =? 47 then Some 47     (* slash *)
  else if c =? 98 then Some 8      (* backspace *)
  else if c =? 102 then Some 12    (* form feed *)
  else if c =? 110 then Some 10    (* line feed *)
  else if c =? 114 then Some 13    (* carriage return *)
  else if c =? 116 then Some 9     (* tab *)
  else None.

Definition is_high_surrogate (u : N) : bool := (55296 <=? u) && (u <=? 56319).
Definition is_low_surrogate (u : N) : bool := (56320 <=? u) && (u <=? 57343).
Definition join_surrogates (hi lo : N) : N :=
  65536 + ((hi - 55296) * 1024 + (lo - 56320)).

(** [scanstring] in strict mode, from just after the opening quote. *)
Fixpoint scanstring (s : str) (acc : str) {struct s} : presult str :=
  match s with
  | [] => PErr JSONDecodeError
  | c :: r =>
      if c =? 34 then POk acc r
      else if c =? 92 then
        match r with
        | [] => PErr JSONDecodeError
        | e :: r1 =>
            if e =? 117 then
              match r1 with
              | h1 :: h2 :: h3 :: h4 :: r2 =>
                  match hex4 h1 h2 h3 h4 with
                  | None => PErr JSONDecodeError
                  | Some u =>
                      if is_high_surrogate u then
                        match r2 with
                        | b :: v :: r3 =>
                            if (b =? 92) && (v =? 117) then
                              match r3 with
                              | g1 :: g2 :: g3 :: g4 :: r4 =>
                                  match hex4 g1 g2 g3 g4 with
                                  | None => PErr JSONDecodeError
                                  | Some u2 =>
                                      if is_low_surrogate u2
                                      then scanstring r4
                                             (acc ++ [join_surrogates u u2])
                                      else scanstring r2 (acc ++ [u])
                                  end
                              | _ => PErr JSONDecodeError
                              end
                            else scanstring r2 (acc ++ [u])
                        | _ => scanstring r2 (acc ++ [u])
                        end
                      else scanstring r2 (acc ++ [u])
                  end
              | _ => PErr JSONDecodeError
              end
            else
              match backslash e with
              | Some ch => scanstring r1 (acc ++ [ch])
              | None => PErr JSONDecodeError
              end
        end
      else if c <? 32 then PErr JSONDecodeError
      else scanstring r (acc ++ [c])
  end.

(** The longest prefix of digits, and what follows it. *)
Fixpoint span_digits (s : str) : str * str :=
  match s with
  | c :: r =>
      if is_digit c then let (ds, rest) := span_digits r in (c :: ds, rest)
      else ([], s)
  | [] => ([], [])
  end.

(** The integer group of [NUMBER_RE]: an optional minus, then a single 0
    or a digit 1-9 followed by any digits. *)
Definition match_integer (s : str) : option (str * str) :=
  let (sign, s1) :=
    match s with
    | c :: r => if c =? 45 then ([45], r) else ([], s)
    | [] => ([], s)
    end in
  match s1 with
  | c :: r =>
      if c =? 48 then Some (sign ++ [48], r)
      else if is_digit c then
        let (ds, rest) := span_digits r in Some (sign ++ c :: ds, rest)
      else None
  | [] => None
  end.

(** The optional fraction group: a dot and at least one digit. *)
Definition match_frac (s : str) : str * str :=
  match s with
  | c :: r =>
      if c =? 46 then
        match span_digits r with
        | ([], _) => ([], s)
        | (ds, rest) => (c :: ds, rest)
        end
      else ([], s)
  | [] => ([], s)
  end.

(** The optional exponent group: e or E, an optional sign, at least one
    digit. *)
Definition match_exp (s : str) : str * str :=
  match s with
  | c :: r =>
      if (c =? 101) || (c =? 69) then
        let (sign, r1) :=
          match r with
          | g :: r' => if (g =? 45) || (g =? 43) then ([g], r') else ([], r)
          | [] => ([], r)
          end in
        match span_digits r1 with
        | ([], _) => ([], s)
        | (ds, rest) => (c :: sign ++ ds, rest)
        end
      else ([], s)
  | [] => ([], s)
  end.

(** [NUMBER_RE.match]: the integer group, the fraction and exponent groups
    together, and the remaining input. *)
Definition match_number (s : str) : option (str * str * str) :=
  match match_integer s with
  | None => None
  | Some (integer, r1) =>
      let (frac, r2) := match_frac r1 in
      let (exp, r3) := match_exp r2 in
      Some (integer, frac ++ exp, r3)
  end.

(** [int(integer)] raises [ValueError]: the text has more digits (the sign
    is not counted) than [max_digits], when that limit is not 0. *)
Definition int_refuses (max_digits : nat) (integer : str) : bool :=
  ((0 <? max_digits) && (max_digits <? length (List.filter is_digit integer)))%nat.

(** [s] starts with [p]: what follows. *)
Fixpoint strip_prefix (p s : str) : option str :=
  match p, s with
  | [], _ => Some s
  | a :: p', b :: s' => if a =? b then strip_prefix p' s' else None
  | _ :: _, [] => None
  end.

(** The named constants of [scan_once], tried in its order around the
    number: a number with a fraction or an exponent goes to [float], which
    accepts any length, the others go to [int]. *)
Definition scan_constant (max_digits : nat) (s : str) : presult pyval :=
  match strip_prefix (lit "null") s with
  | Some r => POk PNone r
  | None =>
  match strip_prefix (lit "true") s with
  | Some r => POk (PBool true) r
  | None =>
  match strip_prefix (lit "false") s with
  | Some r => POk (PBool false) r
  | None =>
  match match_number s with
  | Some (integer, [], r) =>
      if int_refuses max_digits integer then PErr ValueError
      else POk (PNum integer) r
  | Some (integer, c :: tail, r) => POk (PNum (integer ++ c :: tail)) r
  | None =>
  match strip_prefix (lit "NaN") s with
  | Some r => POk (PNum (lit "NaN")) r
  | None =>
  match strip_prefix (lit "Infinity") s with
  | Some r => POk (PNum (lit "Infinity")) r
  | None =>
  match strip_prefix (lit "-Infinity") s with
  | Some r => POk (PNum (lit "-Infinity")) r
  | None => PErr JSONDecodeError
  end end end end end end end.

(** [scan_once], with [JSONObject] and [JSONArray]: [object_pairs] starts
    just after the opening quote of a key, [array_items] at a value.
    [depth] is the number of arrays and objects that may still be entered,
    one inside the other; entering one more raises [RecursionError] before
    anything of it is read. *)
Fixpoint scan_once (max_digits fuel depth : nat) (s : str) {struct fuel}
  : presult pyval :=
  match fuel with
  | O => PFuel
  | S f =>
      match s with
      | [] => PErr JSONDecodeError
      | c :: r =>
          if c =? 34 then
            match scanstring r [] with
            | POk k rest => POk (PStr k) rest
            | PErr e => PErr e
            | PFuel => PFuel
            end
          else if c =? 123 then
            match depth with
            | O => PErr RecursionError
            | S d =>
                match skip_ws r with
                | c1 :: r1 =>
                    if c1 =? 125 then POk (PDict []) r1
                    else if c1 =? 34 then object_pairs max_digits f d r1 []
                    else PErr JSONDecodeError
                | [] => PErr JSONDecodeError
                end
            end
          else if c =? 91 then
            match depth with
            | O => PErr RecursionError
            | S d =>
                match skip_ws r with
                | c1 :: r1 =>
                    if c1 =? 93 then POk (PList []) r1
                    else array_items max_digits f d (c1 :: r1) []
                | [] => PErr JSONDecodeError
                end
            end
          else scan_constant max_digits s
      end
  end
with object_pairs (max_digits fuel depth : nat) (s : str)
       (pairs : list (str * pyval)) {struct fuel} : presult pyval :=
  match fuel with
  | O => PFuel
  | S f =>
      match scanstring s [] with
      | POk key rest =>
          match skip_ws rest with
          | c :: rest1 =>
              if c =? 58 then
                match scan_once max_digits f depth (skip_ws rest1) with
                | POk value rest2 =>
                    let pairs' := pairs ++ [(key, value)] in
                    match skip_ws rest2 with
                    | c2 :: rest3 =>
                        if c2 =? 125
                        then POk (PDict (dict_of_pairs pairs')) rest3
                        else if c2 =? 44 then
                          match skip_ws rest3 with
                          | c3 :: rest4 =>
                              if c3 =? 34
                              then object_pairs max_digits f depth rest4 pairs'
                              else PErr JSONDecodeError
                          | [] => PErr JSONDecodeError
                          end
                        else PErr JSONDecodeError
                    | [] => PErr JSONDecodeError
                    end
                | PErr e => PErr e
                | PFuel => PFuel
                end
              else PErr JSONDecodeError
          | [] => PErr JSONDecodeError
          end
      | PErr e => PErr e
      | PFuel => PFuel
      end
  end
with array_items (max_digits fuel depth : nat) (s : str) (items : list pyval)
       {struct fuel} : presult pyval :=
  match fuel with
  | O => PFuel
  | S f =>
      match scan_once max_digits f depth s with
      | POk value rest =>
          let items' := items ++ [value] in
          match skip_ws rest with
          | c :: rest1 =>
              if c =? 93 then POk (PList items') rest1
              else if c =? 44
              then array_items max_digits f depth (skip_ws rest1) items'
              else PErr JSONDecodeError
          | [] => PErr JSONDecodeError
          end
      | PErr e => PErr e
      | PFuel => PFuel
      end
  end.

(** The fuel [json_loads] starts with. *)
Definition json_fuel (s : str) : nat := 2 * length s + 2.

(** [JSONDecoder.decode]: one value, white space around it, nothing else. *)
Definition json_decode (max_depth max_digits : nat) (s : str) : presult pyval :=
  match scan_once max_digits (json_fuel s) max_depth (skip_ws s) with
  | POk v rest =>
      match skip_ws rest with
      | [] => POk v []
      | _ :: _ => PErr JSONDecodeError
      end
  | PErr e => PErr e
  | PFuel => PFuel
  end.

(** [json.loads(s)] for a [str], in an interpreter with room for
    [max_depth] nested arrays and objects and integers of [max_digits]
    digits. *)
Definition json_loads (max_depth max_digits : nat) (s : str) : outcome pyval :=
  if match s with c :: _ => c =? 65279 | [] => false end
  then Raises JSONDecodeError                    (* a leading BOM is refused *)
  else
    match json_decode max_depth max_digits s with
    | POk v _ => Returns v
    | PErr e => Raises e
    | PFuel => Raises JSONDecodeError            (* never: [json_decode_fuel] *)
    end.

(** ** Operations of the interpreter on JSON values *)

(** [p in s] for two strings. *)
Fixpoint is_substring (p s : str) : bool :=
  match strip_prefix p s with
  | Some _ => true
  | None => match s with [] => false | _ :: r => is_substring p r end
  end.

Definition pyval_is_str (k : str) (v : pyval) : bool :=
  match v with
  | PStr s => str_eqb k s
  | _ => false
  end.

(** [k in v] for a string [k]. *)
Definition py_contains (k : str) (v : pyval) : outcome bool :=
  match v with
  | PDict d => Returns (match dict_get k d with Some _ => true | None => false end)
  | PList l => Returns (existsb (pyval_is_str k) l)
  | PStr s => Returns (is_substring k s)
  | PNone | PBool _ | PNum _ => Raises TypeError
  end.

(** [v[k]] for a string [k]. *)
Definition py_getitem (v : pyval) (k : str) : outcome pyval :=
  match v with
  | PDict d => match dict_get k d with Some x => Returns x | None => Raises KeyError end
  | _ => Raises TypeError
  end.

(** [v[0]]. *)
Definition py_getitem0 (v : pyval) : outcome pyval :=
  match v with
  | PList (x :: _) => Returns x
  | PList [] => Raises IndexError
  | PStr (c :: _) => Returns (PStr [c])
  | PStr [] => Raises IndexError
  | PDict _ => Raises KeyError         (* the keys of a decoded object are strings *)
  | PNone | PBool _ | PNum _ => Raises TypeError
  end.

(** [v.get(k, default)]. *)
Definition py_get (v : pyval) (k : str) (default : pyval) : outcome pyval :=
  match v with
  | PDict d => Returns (match dict_get k d with Some x => x | None => default end)
  | _ => Raises AttributeError
  end.

Definition isinstance_list (v : pyval) : bool :=
  match v with
  | PList _ => true
  | _ => false
  end.

Definition digits_value (ds : str) : Z :=
  fold_left (fun a c => (a * 10 + (Z.of_N c - 48))%Z) ds 0%Z.

(** Whether the number written [lexeme] is different from zero: an [int] is
    zero when all its digits are; a [float] also when it rounds to zero,
    that is when it is at most half the least subnormal, 2^-1075. *)
Definition num_nonzero (lexeme : str) : bool :=
  let body := match lexeme with c :: r => if c =? 45 then r else lexeme | [] => [] end in
  let (int_ds, r1) := span_digits body in
  match int_ds with
  | [] => true                                    (* NaN, Infinity, -Infinity *)
  | _ :: _ =>
      let (frac_ds, r2) :=
        match r1 with
        | c :: r => if c =? 46 then span_digits r else ([], r1)
        | [] => ([], r1)
        end in
      let mant := digits_value (int_ds ++ frac_ds) in
      let e :=
        match r2 with
        | _ :: g :: r3 =>
            if g =? 45 then (- digits_value r3)%Z
            else if g =? 43 then digits_value r3
            else digits_value (g :: r3)
        | _ => 0%Z
        end in
      let e10 := (e - Z.of_nat (length frac_ds))%Z in
      if (mant =? 0)%Z then false
      else if (0 <=? e10)%Z then true
      else negb (mant * 2 ^ 1075 <=? 10 ^ (- e10))%Z
  end.

(** [bool(v)]. *)
Definition py_truthy (v : pyval) : bool :=
  match v with
  | PNone => false
  | PBool b => b
  | PNum lexeme => num_nonzero lexeme
  | PStr s => match s with [] => false | _ => true end
  | PList l => match l with [] => false | _ => true end
  | PDict d => match d with [] => false | _ => true end
  end.

(** The items [for x in v] goes through. *)
Definition py_iter (v : pyval) : outcome (list pyval) :=
  match v with
  | PList l => Returns l
  | PStr s => Returns (List.map (fun c => PStr [c]) s)
  | PDict d => Returns (List.map (fun kv => PStr (fst kv)) d)
  | PNone | PBool _ | PNum _ => Raises TypeError
  end.

(** The strings among [items], when all of them are strings. *)
Fixpoint all_strs (items : list pyval) : option (list str) :=
  match items with
  | [] => Some []
  | PStr s :: r =>
      match all_strs r with
      | Some ss => Some (s :: ss)
      | None => None
      end
  | _ :: _ => None
  end.

(** [sep.join(v)]. *)
Definition py_join (sep : str) (v : pyval) : outcome str :=
  match py_iter v with
  | Raises e => Raises e
  | Returns items =>
      match all_strs items with
      | Some ss => Returns (str_join sep ss)
      | None => Raises TypeError
      end
  end.

(** [len(v)] of a list, as Python prints it. *)
Definition str_of_len {A : Type} (l : list A) : str := str_of_nat (length l).

(** ** The data of the program *)

(** One entry of a parsed feed, as the specification's feed interface has
    it: [entry.link], [entry.title], [entry.summary].  The source reads the
    three attributes outside any [try] (lines 183-196); an entry that lacks
    one of them makes it raise [AttributeError] there.  Such entries are
    outside this type: what is proved below of the Collector and of the
    handler is about feeds whose entries carry the three attributes. *)
Record Entry : Type := {
  entry_link : str;
  entry_title : str;
  entry_summary : str
}.

(** What [feedparser.parse(url)] gives: an exception, or a feed with its
    [bozo] flag and its entries. *)
Inductive FeedResult : Type :=
| FeedRaises (e : exn)
| Feed (bozo : bool) (entries : list Entry).

(** The dictionary built for a candidate paper:
    [{"url": ..., "title": ..., "abstract": ...}]. *)
Record CandidatePaper : Type := {
  paper_url : str;
  paper_title : str;
  paper_abstract : str
}.

(** [topic_hierarchy]: the seven levels, in the order of the dictionary. *)
Record TopicHierarchy : Type := {
  L0_Domain : list str;
  L1_Approach : list str;
  L2_Task : list str;
  L3_Modality : list str;
  L4_Application : list str;
  L5_Environment : list str;
  L6_Challenge : list str
}.

(** The module-level configuration, read once from the environment.
    [aws_clients] is [all([dynamodb, dynamodb_table, bedrock_runtime])];
    [MAX_ARTICLES_TO_PROCESS_int] is [int(MAX_ARTICLES_TO_PROCESS_ENV)],
    [None] when it raises [ValueError]. *)
Record Config : Type := {
  TEAMS_WEBHOOK_URL : option str;
  aws_clients : bool;
  MAX_ARTICLES_TO_PROCESS_int : option Z;
  RSS_FEED_URLS_ENV : str;
  TOPICS_L0_DOMAIN_ENV : str;
  TOPICS_L1_APPROACH_ENV : str;
  TOPICS_L2_TASK_ENV : str;
  TOPICS_L3_MODALITY_ENV : str;
  TOPICS_L4_APPLICATION_ENV : str;
  TOPICS_L5_ENVIRONMENT_ENV : str;
  TOPICS_L6_CHALLENGE_ENV : str
}.

(** The bytes [response.get('body').read()] gives, as [json.loads] takes
    them: it first decodes them ([s.decode(detect_encoding(s),
    'surrogatepass')]), which raises [UnicodeDecodeError] on bytes that are
    no text in the detected encoding, and gives the text otherwise. *)
Inductive Body : Type :=
| Undecodable
| Decoded (text : str).

(** What the program depends on and does not define.
    - [feedparser_parse url]: the feed behind [url].
    - [get_item_error url], [put_item_error url]: the exception the table
      raises for this key, if any.
    - [invoke_model papers topics]: the body of the response of Bedrock to
      the prompt built from [papers] and [topics], or the exception of the
      call or of reading the body.
    - [requests_post url payload]: the status code of the response, or the
      exception of the call.
    - [py_repr v]: [str(v)] for a value that is not a string.
    - [json_max_depth], [int_max_str_digits]: the limits of the interpreter
      that [json.loads] can hit (see [json_loads]). *)
Record World : Type := {
  feedparser_parse : str -> FeedResult;
  get_item_error : str -> option exn;
  put_item_error : str -> option exn;
  invoke_model : list CandidatePaper -> TopicHierarchy -> outcome Body;
  requests_post : str -> pyval -> outcome Z;
  py_repr : pyval -> str;
  json_max_depth : nat;
  int_max_str_digits : nat
}.

(** The calls a run makes, in order. *)
Inductive Event : Type :=
| EvFeedParse (feed_url : str)
| EvGetItem (url : str)
| EvPutItem (url : str)
| EvInvokeModel (papers : list CandidatePaper)
| EvNotify (selected_papers : pyval)
| EvPost (webhook : str) (payload : pyval).

(** The state a run changes: the keys of the DynamoDB table (an item also
    carries [processed_at] and [ttl], read from the clock; lookups are by
    [article_url] alone) and the trace of the calls made so far. *)
Record State : Type := {
  table : gset str;
  trace : list Event
}.

(** The dictionary the handler returns. *)
Record Response : Type := {
  statusCode : Z;
  body : str
}.

(** ** Computations: state, and exceptions that keep the state *)

Definition M (A : Type) : Type := State -> outcome A * State.

Definition ret {A : Type} (a : A) : M A := fun st => (Returns a, st).

Definition raise {A : Type} (e : exn) : M A := fun st => (Raises e, st).

Definition bind {A B : Type} (m : M A) (k : A -> M B) : M B :=
  fun st =>
    match m st with
    | (Returns a, st') => k a st'
    | (Raises e, st') => (Raises e, st')
    end.

Notation "'let*' x ':=' m 'in' k" := (bind m (fun x => k))
  (at level 10, x pattern, m at level 100, k at level 200).

Notation "m ';;' k" := (bind m (fun _ => k))
  (at level 100, k at level 200, right associativity).

Definition lift {A : Type} (o : outcome A) : M A := fun st => (o, st).

(** [try: body except C as e: handler e], where [catches] tells the
    instances of [C]. *)
Definition try_except {A : Type} (body : M A) (catches : exn -> bool)
    (handler : exn -> M A) : M A :=
  fun st =>
    match body st with
    | (Returns a, st') => (Returns a, st')
    | (Raises e, st') => if catches e then handler e st' else (Raises e, st')
    end.

(** [except Exception]. *)
Definition Exception (e : exn) : bool := true.

Definition emit (ev : Event) : M unit :=
  fun st => (Returns tt, {| table := table st; trace := trace st ++ [ev] |}).

Definition obind {A B : Type} (o : outcome A) (k : A -> outcome B) : outcome B :=
  match o with
  | Returns a => k a
  | Raises e => Raises e
  end.

Notation "'let+' x ':=' o 'in' k" := (obind o (fun x => k))
  (at level 10, x pattern, o at level 100, k at level 200).

(** [try ... except C] for a computation without effects. *)
Definition otry {A : Type} (o : outcome A) (catches : exn -> bool)
    (handler : exn -> outcome A) : outcome A :=
  match o with
  | Returns a => Returns a
  | Raises e => if catches e then handler e else Raises e
  end.

(** ** The Dedup Store adapter *)

(** [is_article_processed(url)]. *)
Definition is_article_processed (w : World) (url : str) : M bool :=
  try_except
    (emit (EvGetItem url);;
     fun st =>
       match get_item_error w url with
       | Some e => (Raises e, st)
       | None => (Returns (bool_decide (url ∈ table st)), st)   (* 'Item' in response *)
       end)
    Exception
    (fun _ => ret false).

(** [mark_article_as_processed(url)]. *)
Definition mark_article_as_processed (w : World) (url : str) : M unit :=
  try_except
    (emit (EvPutItem url);;
     fun st =>
       match put_item_error w url with
       | Some e => (Raises e, st)
       | None => (Returns tt, {| table := {[ url ]} ∪ table st; trace := trace st |})
       end)
    Exception
    (fun _ => ret tt).

(** ** The Feed Collector *)

Definition ABSTRACT_TRUNCATE_LENGTH : Z := 1500.

(** The abstract stored for an entry whose summary is [abstract]. *)
Definition truncate_abstract (abstract : str) : str :=
  let truncated_abstract := py_slice abstract 0 ABSTRACT_TRUNCATE_LENGTH in
  if (Z.of_nat (length abstract) >? ABSTRACT_TRUNCATE_LENGTH)%Z
  then truncated_abstract ++ lit "... (truncated)"
  else truncated_abstract.

Definition candidate_of_entry (entry : Entry) : CandidatePaper :=
  {| paper_url := entry_link entry;
     paper_title := entry_title entry;
     paper_abstract := truncate_abstract (entry_summary entry) |}.

(** The loop over the entries of one feed. *)
Fixpoint collect_entries (w : World) (entries : list Entry)
    (limit_per_feed fetched_from_this_feed : Z)
    (papers_to_analyze : list CandidatePaper) (processed_urls : list str)
  : M (list CandidatePaper * list str) :=
  match entries with
  | [] => ret (papers_to_analyze, processed_urls)
  | entry :: rest =>
      if (fetched_from_this_feed >=? limit_per_feed)%Z
      then ret (papers_to_analyze, processed_urls)          (* break *)
      else
        let article_url := entry_link entry in
        let* processed := is_article_processed w article_url in
        if processed
        then collect_entries w rest limit_per_feed fetched_from_this_feed
               papers_to_analyze processed_urls              (* continue *)
        else collect_entries w rest limit_per_feed
               (fetched_from_this_feed + 1)
               (papers_to_analyze ++ [candidate_of_entry entry])
               (processed_urls ++ [article_url])
  end.

(** The loop over the feeds. *)
Fixpoint collect_feeds (w : World) (feed_urls : list str) (limit_per_feed : Z)
    (papers_to_analyze : list CandidatePaper) (processed_urls : list str)
  : M (list CandidatePaper * list str) :=
  match feed_urls with
  | [] => ret (papers_to_analyze, processed_urls)
  | feed_url :: rest =>
      emit (EvFeedParse feed_url);;
      match feedparser_parse w feed_url with
      | FeedRaises _ =>
          collect_feeds w rest limit_per_feed papers_to_analyze processed_urls
      | Feed bozo entries =>
          if bozo
          then collect_feeds w rest limit_per_feed papers_to_analyze processed_urls
          else
            match entries with
            | [] =>
                collect_feeds w rest limit_per_feed papers_to_analyze processed_urls
            | _ :: _ =>
                let* (papers, urls) :=
                  collect_entries w entries limit_per_feed 0
                    papers_to_analyze processed_urls in
                collect_feeds w rest limit_per_feed papers urls
            end
      end
  end.

(** [collect_unprocessed_papers(feed_urls, limit_per_feed)]. *)
Definition collect_unprocessed_papers (w : World) (feed_urls : list str)
    (limit_per_feed : Z) : M (list CandidatePaper * list str) :=
  collect_feeds w feed_urls limit_per_feed [] [].

(** ** The Relevance Selector *)

(** [{"selected_papers": []}]. *)
Definition empty_selection : pyval :=
  PDict [(lit "selected_papers", PList [])].

(** [json.loads] as this program's interpreter runs it. *)
Definition json_loads_or_raise (w : World) (s : str) : outcome pyval :=
  json_loads (json_max_depth w) (int_max_str_digits w) s.

(** [json.loads(body)] for the bytes of the response. *)
Definition json_loads_body (w : World) (body : Body) : outcome pyval :=
  match body with
  | Undecodable => Raises UnicodeDecodeError
  | Decoded text => json_loads_or_raise w text
  end.

(** The [if]/[else] that yields [analysis_data].  A [result_text] that is
    not a string has no [find], and [json.loads] refuses it. *)
Definition loads_result_text (w : World) (result_text : pyval) : outcome pyval :=
  let+ has_open := py_contains [123] result_text in
  let+ has_close :=
    if has_open then py_contains [125] result_text else Returns false in
  match result_text with
  | PStr s =>
      if has_open && has_close
      then json_loads_or_raise w
             (py_slice s (py_find 123 s) (py_rfind 125 s + 1))
      else json_loads_or_raise w s
  | _ => if has_open && has_close then Raises AttributeError else Raises TypeError
  end.

(** The validation of the structure of the response. *)
Definition validate_analysis_data (analysis_data : pyval) : outcome pyval :=
  let+ present := py_contains (lit "selected_papers") analysis_data in
  let+ invalid :=
    if negb present then Returns true
    else
      let+ papers := py_getitem analysis_data (lit "selected_papers") in
      Returns (negb (isinstance_list papers)) in
  if invalid then Returns empty_selection else Returns analysis_data.

(** The inner [try] of [analyze_papers_with_bedrock]: from [result_text] to
    the value returned. *)
Definition parse_result_text (w : World) (result_text : pyval) : outcome pyval :=
  otry
    (let+ analysis_data := loads_result_text w result_text in
     validate_analysis_data analysis_data)
    is_JSONDecodeError
    (fun _ => Returns empty_selection).

(** [analyze_papers_with_bedrock(papers, topic_hierarchy)].  The prompt is a
    function of the two arguments; the answer to it is [invoke_model]. *)
Definition analyze_papers_with_bedrock (w : World)
    (papers : list CandidatePaper) (topic_hierarchy : TopicHierarchy)
  : M pyval :=
  try_except
    (emit (EvInvokeModel papers);;
     let* body := lift (invoke_model w papers topic_hierarchy) in
     let* response_body := lift (json_loads_body w body) in
     let* content := lift (py_getitem response_body (lit "content")) in
     let* first := lift (py_getitem0 content) in
     let* result_text := lift (py_getitem first (lit "text")) in
     lift (parse_result_text w result_text))
    Exception
    (fun e => raise e).

(** ** The Notifier *)

(** [str(v)], as an f-string formats [v]. *)
Definition py_format (w : World) (v : pyval) : str :=
  match v with
  | PStr s => s
  | _ => py_repr w v
  end.

Definition TextBlock : pyval := PStr (lit "TextBlock").
Definition Medium : pyval := PStr (lit "Medium").

(** The separator line between two papers. *)
Definition separator_block : pyval :=
  PDict [(lit "type", TextBlock);
         (lit "text", PStr (lit "---"));
         (lit "separator", PBool true)].

(** The title of a paper, with its rank. *)
Definition title_block (text : str) : pyval :=
  PDict [(lit "type", TextBlock);
         (lit "text", PStr text);
         (lit "size", Medium);
         (lit "weight", PStr (lit "Bolder"));
         (lit "wrap", PBool true)].

(** Topic, keywords and summary in one Markdown block. *)
Definition markdown_block (text : str) : pyval :=
  PDict [(lit "type", TextBlock);
         (lit "text", PStr text);
         (lit "wrap", PBool true);
         (lit "spacing", Medium)].

(** The label of the button: "元の論文 (arXiv) を読む". *)
Definition action_title : str :=
  [20803; 12398; 35542; 25991] ++ lit " (arXiv) " ++ [12434; 35501; 12416].

(** The button that opens the paper. *)
Definition action_block (url : pyval) : pyval :=
  PDict [(lit "type", PStr (lit "ActionSet"));
         (lit "actions",
          PList [PDict [(lit "type", PStr (lit "Action.OpenUrl"));
                        (lit "title", PStr action_title);
                        (lit "url", url)]]);
         (lit "spacing", Medium)].

(** The headings of the Markdown block: "**該当トピック:**" and
    "**キーワード:**", each followed by a line feed. *)
Definition topic_heading : str :=
  lit "**" ++ [35442; 24403; 12488; 12500; 12483; 12463] ++ lit ":**" ++ [10].
Definition keywords_heading : str :=
  lit "**" ++ [12461; 12540; 12527; 12540; 12489] ++ lit ":**" ++ [10].

Definition markdown_text (topic_str keywords_str summary_str : str) : str :=
  topic_heading ++ topic_str ++ [10; 10]
  ++ keywords_heading ++ keywords_str ++ [10; 10]
  ++ summary_str.

Definition title_text (i : nat) (title : str) : str :=
  lit "**" ++ str_of_nat (i + 1) ++ lit ". " ++ title ++ lit "**".

(** The display string of [matched_topic]. *)
Definition topic_display (w : World) (topic_value : pyval) : outcome str :=
  if isinstance_list topic_value then
    if negb (py_truthy topic_value) then Returns (lit "(N/A)")
    else py_join (lit ", ") topic_value
  else Returns (py_format w topic_value).

(** One turn of the loop of [post_summary_to_teams]: the elements appended
    for the paper of index [i]. *)
Definition paper_elements (w : World) (i : nat) (paper : pyval)
  : outcome (list pyval) :=
  let separator := if (0 <? i)%nat then [separator_block] else [] in
  let+ title := py_get paper (lit "title") (PStr (lit "(No Title)")) in
  let+ topic_value := py_get paper (lit "matched_topic") (PStr (lit "(N/A)")) in
  let+ topic_str := topic_display w topic_value in
  let+ keywords := py_get paper (lit "keywords") (PList []) in
  let+ keywords_str := py_join (lit ", ") keywords in
  let+ summary_str := py_get paper (lit "summary") (PStr (lit "(No Summary)")) in
  let+ url := py_get paper (lit "url") (PStr (lit "#")) in
  Returns (separator
           ++ [title_block (title_text i (py_format w title));
               markdown_block
                 (markdown_text topic_str keywords_str (py_format w summary_str));
               action_block url]).

(** The loop over [enumerate(selected_papers)], from index [i]. *)
Fixpoint card_body_loop (w : World) (i : nat) (papers : list pyval)
    (card_body_elements : list pyval) : outcome (list pyval) :=
  match papers with
  | [] => Returns card_body_elements
  | paper :: rest =>
      let+ elements := paper_elements w i paper in
      card_body_loop w (S i) rest (card_body_elements ++ elements)
  end.

(** The Adaptive Card payload around the body. *)
Definition card_payload (card_body_elements : list pyval) : pyval :=
  PDict [(lit "type", PStr (lit "message"));
         (lit "attachments",
          PList [PDict [(lit "contentType",
                         PStr (lit "application/vnd.microsoft.card.adaptive"));
                        (lit "content",
                         PDict [(lit "$schema",
                                 PStr (lit "http://adaptivecards.io/schemas/adaptive-card.json"));
                                (lit "type", PStr (lit "AdaptiveCard"));
                                (lit "version", PStr (lit "1.5"));
                                (lit "msteams",
                                 PDict [(lit "width", PStr (lit "Full"))]);
                                (lit "body", PList card_body_elements)])]])].

(** [response.raise_for_status()]. *)
Definition raise_for_status (status_code : Z) : outcome unit :=
  if ((400 <=? status_code) && (status_code <? 600))%Z
  then Raises HTTPError
  else Returns tt.

(** [post_summary_to_teams(selected_papers)]. *)
Definition post_summary_to_teams (cfg : Config) (w : World)
    (selected_papers : pyval) : M bool :=
  emit (EvNotify selected_papers);;
  let* papers := lift (py_iter selected_papers) in
  let* card_body_elements := lift (card_body_loop w 0 papers []) in
  let payload := card_payload card_body_elements in
  match TEAMS_WEBHOOK_URL cfg with
  | None | Some [] => ret false
  | Some webhook =>
      try_except
        (emit (EvPost webhook payload);;
         let* status_code := lift (requests_post w webhook payload) in
         lift (raise_for_status status_code);;
         ret (status_code =? 200)%Z)
        is_RequestException
        (fun _ => ret false)
  end.

(** ** The Orchestrator *)

(** The comprehension [[t.strip() for t in env_var.split(',') if t.strip()]]
    of [parse_topics]. *)
Definition parse_topics (env_var : str) : list str :=
  List.map py_strip
    (List.filter (fun t => py_truthy (PStr (py_strip t)))
       (py_split_comma env_var)).

(** [feed_urls_list]: the same comprehension over [RSS_FEED_URLS_ENV]. *)
Definition feed_urls_list_of (cfg : Config) : list str :=
  List.map py_strip
    (List.filter (fun url => py_truthy (PStr (py_strip url)))
       (py_split_comma (RSS_FEED_URLS_ENV cfg))).

(** [max(a, b)]. *)
Definition py_max (a b : Z) : Z := if (b >? a)%Z then b else a.

Definition limit_per_feed_of (max_to_process : Z) (feed_urls_list : list str) : Z :=
  let num_feeds := Z.of_nat (length feed_urls_list) in
  py_max 1 (max_to_process / num_feeds).

Definition max_to_process_of (cfg : Config) : Z :=
  match MAX_ARTICLES_TO_PROCESS_int cfg with
  | Some n => n
  | None => 20
  end.

Definition topic_hierarchy_of (cfg : Config) : TopicHierarchy :=
  {| L0_Domain := parse_topics (TOPICS_L0_DOMAIN_ENV cfg);
     L1_Approach := parse_topics (TOPICS_L1_APPROACH_ENV cfg);
     L2_Task := parse_topics (TOPICS_L2_TASK_ENV cfg);
     L3_Modality := parse_topics (TOPICS_L3_MODALITY_ENV cfg);
     L4_Application := parse_topics (TOPICS_L4_APPLICATION_ENV cfg);
     L5_Environment := parse_topics (TOPICS_L5_ENVIRONMENT_ENV cfg);
     L6_Challenge := parse_topics (TOPICS_L6_CHALLENGE_ENV cfg) |}.

(** [any(topic_hierarchy.values())]. *)
Definition any_topics (t : TopicHierarchy) : bool :=
  existsb (fun l => match l with [] => false | _ :: _ => true end)
    [L0_Domain t; L1_Approach t; L2_Task t; L3_Modality t;
     L4_Application t; L5_Environment t; L6_Challenge t].

(** Step 5: [for url in processed_urls_in_this_run]. *)
Fixpoint mark_all (w : World) (processed_urls : list str) : M unit :=
  match processed_urls with
  | [] => ret tt
  | url :: rest => mark_article_as_processed w url;; mark_all w rest
  end.

(** Steps 3 to 5 of [lambda_handler], once the batch is not empty. *)
Definition analyze_notify_mark (cfg : Config) (w : World)
    (topic_hierarchy : TopicHierarchy)
    (papers_to_analyze : list CandidatePaper)
    (processed_urls_in_this_run : list str) : M Response :=
  let* selected_papers :=
    try_except
      (let* analysis_result :=
         analyze_papers_with_bedrock w papers_to_analyze topic_hierarchy in
       lift (py_get analysis_result (lit "selected_papers") (PList [])))
      Exception
      (fun _ => ret (PList [])) in
  (if py_truthy selected_papers
   then try_except
          (let* success := post_summary_to_teams cfg w selected_papers in
           ret tt)
          Exception
          (fun _ => ret tt)
   else ret tt);;
  mark_all w processed_urls_in_this_run;;
  ret {| statusCode := 200;
         body := lit "Process successful. Analyzed "
                 ++ str_of_len papers_to_analyze ++ lit " articles." |}.

(** [lambda_handler(event, context)].  The two arguments are not read.  What
    [print] writes is not part of the model; the two [except] clauses around
    the parsing of the configuration have nothing to catch, the environment
    holding strings. *)
Definition lambda_handler (cfg : Config) (w : World) : M Response :=
  if negb (aws_clients cfg)
  then ret {| statusCode := 500; body := lit "AWS Client initialization failed." |}
  else
    let max_to_process := max_to_process_of cfg in
    let feed_urls_list := feed_urls_list_of cfg in
    match feed_urls_list with
    | [] => ret {| statusCode := 200; body := lit "RSS_FEED_URLS not set" |}
    | _ :: _ =>
        let limit_per_feed := limit_per_feed_of max_to_process feed_urls_list in
        let topic_hierarchy := topic_hierarchy_of cfg in
        if negb (any_topics topic_hierarchy)
        then ret {| statusCode := 200;
                    body := lit "All topic environments are empty." |}
        else
          let* (papers_to_analyze, processed_urls_in_this_run) :=
            collect_unprocessed_papers w feed_urls_list limit_per_feed in
          match papers_to_analyze with
          | [] => ret {| statusCode := 200;
                         body := lit "No new articles to analyze" |}
          | _ :: _ =>
              analyze_notify_mark cfg w topic_hierarchy
                papers_to_analyze processed_urls_in_this_run
          end
    end.

(** * Notions used to state the properties *)

(** [i] is the index of the first (last) occurrence of [c] in [s]. *)
Definition is_first (c : N) (s : str) (i : nat) : Prop :=
  s !! i = Some c /\ forall k, (k < i)%nat -> s !! k <> Some c.

Definition is_last (c : N) (s : str) (j : nat) : Prop :=
  s !! j = Some c /\ forall k, (j < k)%nat -> s !! k <> Some c.

(** [part] is what the specification has the parser read of the response
    [text]: the substring from the first opening brace to the last closing
    brace when the text has both, the whole text otherwise. *)
Definition extracted (text part : str) : Prop :=
  (exists i j, is_first 123 text i /\ is_last 125 text j
               /\ part = take (S j - i) (drop i text))
  \/ ((~ In 123 text \/ ~ In 125 text) /\ part = text).

(** The state after the calls [evs]. *)
Definition log (st : State) (evs : list Event) : State :=
  {| table := table st; trace := trace st ++ evs |}.

(** ** The Dedup Store *)

(** The answer of the store for [url] when its keys are [tbl]: a failed
    lookup counts as absent. *)
Definition seen (w : World) (tbl : gset str) (url : str) : bool :=
  match get_item_error w url with
  | Some _ => false
  | None => bool_decide (url ∈ tbl)
  end.

(** The keys of the table after an attempt to mark [url], and after an
    attempt for each of [urls]. *)
Definition marked (w : World) (tbl : gset str) (url : str) : gset str :=
  match put_item_error w url with
  | Some _ => tbl
  | None => {[ url ]} ∪ tbl
  end.

Definition marked_all (w : World) (urls : list str) (tbl : gset str) : gset str :=
  fold_left (marked w) urls tbl.

(** ** The candidate batch *)

Definition is_new (w : World) (tbl : gset str) (entry : Entry) : bool :=
  negb (seen w tbl (entry_link entry)).

(** The entries of a feed the Collector goes through: none when the fetch
    raises, the feed is malformed or it is empty. *)
Definition usable_entries (w : World) (feed_url : str) : list Entry :=
  match feedparser_parse w feed_url with
  | Feed false entries => entries
  | _ => []
  end.

(** The quota window of a feed: its first [limit] new entries, in feed
    order. *)
Definition batch_of_feed (w : World) (tbl : gset str) (limit : Z)
    (feed_url : str) : list Entry :=
  take (Z.to_nat limit) (List.filter (is_new w tbl) (usable_entries w feed_url)).

Definition batch (w : World) (tbl : gset str) (limit : Z)
    (feed_urls : list str) : list Entry :=
  flat_map (batch_of_feed w tbl limit) feed_urls.

(** The new entries among the first [m] entries of a feed. *)
Definition new_among (w : World) (tbl : gset str) (entries : list Entry)
    (m : nat) : Z :=
  Z.of_nat (length (List.filter (is_new w tbl) (take m entries))).

(** The Collector stops after [n] entries of a feed: the quota [limit] is
    not reached before the [n]-th entry, and it is reached there unless the
    feed is at its end. *)
Definition stops_at (w : World) (tbl : gset str) (limit : Z)
    (entries : list Entry) (n : nat) : Prop :=
  (n <= length entries)%nat
  /\ (forall m, (m < n)%nat -> (new_among w tbl entries m < limit)%Z)
  /\ ((n < length entries)%nat -> (limit <= new_among w tbl entries n)%Z).

(** The calls made for one feed: the fetch, then one lookup per entry, in
    feed order, up to where the Collector stops. *)
Definition feed_calls (w : World) (tbl : gset str) (limit : Z)
    (feed_url : str) (evs : list Event) : Prop :=
  exists n,
    stops_at w tbl limit (usable_entries w feed_url) n
    /\ evs = EvFeedParse feed_url
             :: List.map EvGetItem
                  (take n (List.map entry_link (usable_entries w feed_url))).

(** The number of times [u] occurs in [l]. *)
Definition occurrences (u : str) (l : list str) : nat :=
  length (List.filter (str_eqb u) l).

Definition is_collect_event (ev : Event) : bool :=
  match ev with
  | EvFeedParse _ | EvGetItem _ => true
  | _ => false
  end.

(** ** The outcome of the selection and of the notification *)

(** [result_text]: [response_body['content'][0]['text']] of the decoded
    body. *)
Definition result_text_of (w : World) (papers : list CandidatePaper)
    (topic_hierarchy : TopicHierarchy) : outcome pyval :=
  let+ body := invoke_model w papers topic_hierarchy in
  let+ response_body := json_loads_body w body in
  let+ content := py_getitem response_body (lit "content") in
  let+ first := py_getitem0 content in
  py_getitem first (lit "text").

(** What [analyze_papers_with_bedrock] returns or raises. *)
Definition analysis_of (w : World) (papers : list CandidatePaper)
    (topic_hierarchy : TopicHierarchy) : outcome pyval :=
  let+ body := invoke_model w papers topic_hierarchy in
  let+ response_body := json_loads_body w body in
  let+ content := py_getitem response_body (lit "content") in
  let+ first := py_getitem0 content in
  let+ result_text := py_getitem first (lit "text") in
  parse_result_text w result_text.

(** [selected_papers] after step 3 of the handler. *)
Definition selected_of (analysis : outcome pyval) : pyval :=
  match analysis with
  | Returns analysis_result =>
      match py_get analysis_result (lit "selected_papers") (PList []) with
      | Returns v => v
      | Raises _ => PList []
      end
  | Raises _ => PList []
  end.

(** The body of the card for [selected_papers]. *)
Definition card_of (w : World) (selected_papers : pyval) : outcome (list pyval) :=
  let+ papers := py_iter selected_papers in
  card_body_loop w 0 papers [].

(** The webhook, when it is configured. *)
Definition webhook_of (cfg : Config) : option str :=
  match TEAMS_WEBHOOK_URL cfg with
  | None | Some [] => None
  | Some webhook => Some webhook
  end.

(** What the [try] around [requests.post] yields. *)
Definition delivery_result (w : World) (webhook : str) (payload : pyval)
  : outcome bool :=
  match requests_post w webhook payload with
  | Raises e => if is_RequestException e then Returns false else Raises e
  | Returns status_code =>
      if ((400 <=? status_code) && (status_code <? 600))%Z then Returns false
      else Returns (status_code =? 200)%Z
  end.

(** What [post_summary_to_teams] returns or raises, and the calls it makes. *)
Definition post_result (cfg : Config) (w : World) (selected_papers : pyval)
  : outcome bool :=
  match card_of w selected_papers with
  | Raises e => Raises e
  | Returns card_body_elements =>
      match webhook_of cfg with
      | None => Returns false
      | Some webhook => delivery_result w webhook (card_payload card_body_elements)
      end
  end.

Definition post_events (cfg : Config) (w : World) (selected_papers : pyval)
  : list Event :=
  EvNotify selected_papers ::
  match card_of w selected_papers with
  | Raises _ => []
  | Returns card_body_elements =>
      match webhook_of cfg with
      | None => []
      | Some webhook => [EvPost webhook (card_payload card_body_elements)]
      end
  end.

(** The calls of step 4 of the handler. *)
Definition notify_events (cfg : Config) (w : World) (selected_papers : pyval)
  : list Event :=
  if py_truthy selected_papers then post_events cfg w selected_papers else [].

Definition success_response (papers : list CandidatePaper) : Response :=
  {| statusCode := 200;
     body := lit "Process successful. Analyzed "
             ++ str_of_len papers ++ lit " articles." |}.

(** The configuration lets the handler reach the collection. *)
Definition config_ready (cfg : Config) : Prop :=
  aws_clients cfg = true
  /\ feed_urls_list_of cfg <> []
  /\ any_topics (topic_hierarchy_of cfg) = true.

(** A delivery error: no webhook, an exception of [requests], or a status
    other than 200. *)
Definition delivery_fails (cfg : Config) (w : World) (payload : pyval) : Prop :=
  match webhook_of cfg with
  | None => True
  | Some webhook =>
      match requests_post w webhook payload with
      | Raises e => is_RequestException e = true
      | Returns status_code => status_code <> 200%Z
      end
  end.

(** ** A SelectedPaper, as the specification types it *)

Inductive Topic : Type :=
| OneTopic (label : str)
| ManyTopics (labels : list str).

(** Every field may be missing from the object the model wrote. *)
Record SelectedPaper : Type := {
  sp_url : option str;
  sp_title : option str;
  sp_matched_topic : option Topic;
  sp_summary : option str;
  sp_keywords : option (list str)
}.

Definition topic_value (t : Topic) : pyval :=
  match t with
  | OneTopic label => PStr label
  | ManyTopics labels => PList (List.map PStr labels)
  end.

(** The decoded object [paper] is the SelectedPaper [sp]. *)
Definition represents (paper : pyval) (sp : SelectedPaper) : Prop :=
  exists d,
    paper = PDict d
    /\ dict_get (lit "url") d = option_map PStr (sp_url sp)
    /\ dict_get (lit "title") d = option_map PStr (sp_title sp)
    /\ dict_get (lit "matched_topic") d
       = option_map topic_value (sp_matched_topic sp)
    /\ dict_get (lit "summary") d = option_map PStr (sp_summary sp)
    /\ dict_get (lit "keywords") d
       = option_map (fun l => PList (List.map PStr l)) (sp_keywords sp).

Definition or_default {A : Type} (default : A) (o : option A) : A :=
  match o with
  | Some x => x
  | None => default
  end.

(** ** The message, as the specification describes it

    Written from the specification and the texts of the card, without the
    definitions of the Notifier above. *)

(** Labels joined by a comma and a space. *)
Fixpoint comma_joined (labels : list str) : str :=
  match labels with
  | [] => []
  | [a] => a
  | a :: rest => a ++ [44; 32] ++ comma_joined rest
  end.

(** The display string of the matched topic(s). *)
Definition displayed_topic (t : option Topic) : str :=
  match t with
  | Some (OneTopic label) => label
  | Some (ManyTopics (a :: l)) => comma_joined (a :: l)
  | Some (ManyTopics []) | None => lit "(N/A)"
  end.

(** The number a text of decimal digits writes. *)
Fixpoint decimal_value (acc : nat) (digits : str) : option nat :=
  match digits with
  | [] => Some acc
  | c :: rest =>
      if (48 <=? c) && (c <=? 57)
      then decimal_value (10 * acc + N.to_nat (c - 48)) rest
      else None
  end.

Definition writes (digits : str) (n : nat) : Prop :=
  digits <> [] /\ decimal_value 0 digits = Some n.

(** The title line: the rank, a dot and the title, in bold. *)
Definition rendered_title (rank : str) (sp : SelectedPaper) : pyval :=
  PDict [(lit "type", PStr (lit "TextBlock"));
         (lit "text",
          PStr (lit "**" ++ rank ++ lit ". "
                ++ or_default (lit "(No Title)") (sp_title sp) ++ lit "**"));
         (lit "size", PStr (lit "Medium"));
         (lit "weight", PStr (lit "Bolder"));
         (lit "wrap", PBool true)].

(** The Markdown block: the heading of the topics (six characters between
    asterisks) and the topics on the next line, an empty line, the heading
    of the keywords (five characters) and the keywords on the next line, an
    empty line, the summary. *)
Definition rendered_details (sp : SelectedPaper) : pyval :=
  PDict [(lit "type", PStr (lit "TextBlock"));
         (lit "text",
          PStr (lit "**" ++ [35442; 24403; 12488; 12500; 12483; 12463]
                ++ lit ":**" ++ [10]
                ++ displayed_topic (sp_matched_topic sp) ++ [10; 10]
                ++ lit "**" ++ [12461; 12540; 12527; 12540; 12489]
                ++ lit ":**" ++ [10]
                ++ comma_joined (or_default [] (sp_keywords sp)) ++ [10; 10]
                ++ or_default (lit "(No Summary)") (sp_summary sp)));
         (lit "wrap", PBool true);
         (lit "spacing", PStr (lit "Medium"))].

(** The link: one action that opens the URL of the paper. *)
Definition rendered_link (sp : SelectedPaper) : pyval :=
  PDict [(lit "type", PStr (lit "ActionSet"));
         (lit "actions",
          PList [PDict [(lit "type", PStr (lit "Action.OpenUrl"));
                        (lit "title",
                         PStr ([20803; 12398; 35542; 25991]
                               ++ lit " (arXiv) " ++ [12434; 35501; 12416]));
                        (lit "url",
                         PStr (or_default (lit "#") (sp_url sp)))]]);
         (lit "spacing", PStr (lit "Medium"))].

Definition rendered_separator : pyval :=
  PDict [(lit "type", PStr (lit "TextBlock"));
         (lit "text", PStr (lit "---"));
         (lit "separator", PBool true)].

(** The three elements of a paper whose rank is written [rank]. *)
Definition rendered_paper (rank : str) (sp : SelectedPaper) : list pyval :=
  [rendered_title rank sp; rendered_details sp; rendered_link sp].

(** The groups of elements, a separator between two consecutive groups. *)
Fixpoint with_separators (groups : list (list pyval)) : list pyval :=
  match groups with
  | [] => []
  | [g] => g
  | g :: rest => g ++ rendered_separator :: with_separators rest
  end.

(** The message for the papers [sps], their ranks written [ranks]. *)
Definition rendered_card (ranks : list str) (sps : list SelectedPaper)
  : list pyval :=
  with_separators (zip_with rendered_paper ranks sps).

(** The body of the card a posted message carries:
    [payload["attachments"][0]["content"]["body"]]. *)
Definition body_of_payload (payload : pyval) : option (list pyval) :=
  match payload with
  | PDict message =>
      match dict_get (lit "attachments") message with
      | Some (PList (PDict attachment :: _)) =>
          match dict_get (lit "content") attachment with
          | Some (PDict card) =>
              match dict_get (lit "body") card with
              | Some (PList elements) => Some elements
              | _ => None
              end
          | _ => None
          end
      | _ => None
      end
  | _ => None
  end.

(** The ranks [i + 1], [i + 2], ... of [n] papers, as Python writes them. *)
Definition ranks_from (i n : nat) : list str :=
  List.map (fun k => str_of_nat (k + 1)) (seq i n).

(** The elements of the papers from index [i] on, each paper after the
    first of the card preceded by a separator. *)
Fixpoint groups_from (i : nat) (sps : list SelectedPaper) : list pyval :=
  match sps with
  | [] => []
  | sp :: rest =>
      (if (0 <? i)%nat then [rendered_separator] else [])
      ++ rendered_paper (str_of_nat (i + 1)) sp ++ groups_from (S i) rest
  end.

(** * Worked data

    Two feeds ["A"] and ["B"]: five entries behind the first, two of them
    already in the table, and twelve new entries behind the second. *)

Definition example_entry (id : string) : Entry :=
  {| entry_link := lit "http://arxiv.org/abs/" ++ lit id;
     entry_title := lit "Paper " ++ lit id;
     entry_summary := lit "Abstract of " ++ lit id |}.

Definition example_entries_A : list Entry :=
  List.map example_entry ["a1"; "a2"; "a3"; "a4"; "a5"]%string.

Definition example_entries_B : list Entry :=
  List.map example_entry
    ["b1"; "b2"; "b3"; "b4"; "b5"; "b6"; "b7"; "b8"; "b9"; "b10"; "b11"; "b12"]%string.

Definition example_feeds (feed_url : str) : FeedResult :=
  if str_eqb feed_url (lit "A") then Feed false example_entries_A
  else if str_eqb feed_url (lit "B") then Feed false example_entries_B
  else FeedRaises ConnectionError.

(** A world with these feeds and a table that never fails, where Bedrock
    answers [model] and the webhook answers [post], in an interpreter with
    the default limit on the digits of an integer. *)
Definition example_world (model : outcome Body) (post : outcome Z) : World :=
  {| feedparser_parse := example_feeds;
     get_item_error := fun _ => None;
     put_item_error := fun _ => None;
     invoke_model := fun _ _ => model;
     requests_post := fun _ _ => post;
     py_repr := fun _ => lit "<object>";
     json_max_depth := 900;
     int_max_str_digits := 4300 |}.

Definition example_state : State :=
  {| table := {[ entry_link (example_entry "a1");
                 entry_link (example_entry "a3") ]};
     trace := [] |}.

Definition example_config : Config :=
  {| TEAMS_WEBHOOK_URL := Some (lit "https://example.webhook.office.com/hook");
     aws_clients := true;
     MAX_ARTICLES_TO_PROCESS_int := Some 20%Z;
     RSS_FEED_URLS_ENV := lit "A, B";
     TOPICS_L0_DOMAIN_ENV := lit "Machine Learning";
     TOPICS_L1_APPROACH_ENV := lit "Contrastive Learning, Distillation";
     TOPICS_L2_TASK_ENV := [];
     TOPICS_L3_MODALITY_ENV := [];
     TOPICS_L4_APPLICATION_ENV := [];
     TOPICS_L5_ENVIRONMENT_ENV := [];
     TOPICS_L6_CHALLENGE_ENV := lit "Few-shot" |}.

(** The text of a model that lists four papers, wrapped in prose. *)
Definition four_papers_text : str :=
  dq "Here is the result: {'selected_papers': [{'url': 'u1', 'title': 'P1', 'matched_topic': ['A', 'B'], 'summary': 'S1', 'keywords': ['k1', 'k2']}, {'url': 'u2', 'title': 'P2', 'matched_topic': 'A'}, {'url': 'u3', 'title': 'P3'}, {'url': 'u4', 'title': 'P4'}]} Thanks.".

(** The body of the response of Bedrock carrying that text. *)
Definition four_papers_response : str :=
  dq "{'content': [{'type': 'text', 'text': 'Here is the result: {\'selected_papers\': [{\'url\': \'u1\', \'title\': \'P1\', \'matched_topic\': [\'A\', \'B\'], \'summary\': \'S1\', \'keywords\': [\'k1\', \'k2\']}, {\'url\': \'u2\', \'title\': \'P2\', \'matched_topic\': \'A\'}, {\'url\': \'u3\', \'title\': \'P3\'}, {\'url\': \'u4\', \'title\': \'P4\'}]} Thanks.'}]}".

(** Two feeds that list the same article. *)
Definition twin_feeds (feed_url : str) : FeedResult :=
  if str_eqb feed_url (lit "A") then
    Feed false [example_entry "x1"; example_entry "a2"]
  else if str_eqb feed_url (lit "B") then
    Feed false [example_entry "b1"; example_entry "x1"; example_entry "x1"]
  else FeedRaises ConnectionError.

Definition twin_world : World :=
  {| feedparser_parse := twin_feeds;
     get_item_error := fun _ => None;
     put_item_error := fun _ => None;
     invoke_model := fun _ _ => Raises ClientError;
     requests_post := fun _ _ => Returns 200%Z;
     py_repr := fun _ => lit "<object>";
     json_max_depth := 900;
     int_max_str_digits := 4300 |}.

(** Two selected papers: one complete, one with only its address. *)
Definition example_selected : list pyval :=
  [PDict [(lit "url", PStr (lit "u1"));
          (lit "title", PStr (lit "P1"));
          (lit "matched_topic", PList [PStr (lit "A"); PStr (lit "B")]);
          (lit "summary", PStr (lit "S1"));
          (lit "keywords", PList [PStr (lit "k1"); PStr (lit "k2")])];
   PDict [(lit "url", PStr (lit "u2"))]].

Definition example_selected_typed : list SelectedPaper :=
  [{| sp_url := Some (lit "u1");
      sp_title := Some (lit "P1");
      sp_matched_topic := Some (ManyTopics [lit "A"; lit "B"]);
      sp_summary := Some (lit "S1");
      sp_keywords := Some [lit "k1"; lit "k2"] |};
   {| sp_url := Some (lit "u2");
      sp_title := None;
      sp_matched_topic := None;
      sp_summary := None;
      sp_keywords := None |}].

(** ** Notions used by the further properties *)




Definition is_put_event (ev : Event) : bool :=
  match ev with
  | EvPutItem _ => true
  | _ => false
  end.

(** The feed behind [feed_url] gives the Collector nothing to go through. *)
Definition feed_unusable (w : World) (feed_url : str) : Prop :=
  (exists e, feedparser_parse w feed_url = FeedRaises e)
  \/ (exists entries, feedparser_parse w feed_url = Feed true entries)
  \/ feedparser_parse w feed_url = Feed false [].

Definition is_dict (v : pyval) : bool :=
  match v with
  | PDict _ => true
  | _ => false
  end.

(** A decoded value that is not a container: [None], a boolean, a number. *)
Definition is_scalar (v : pyval) : bool :=
  match v with
  | PNone | PBool _ | PNum _ => true
  | _ => false
  end.

(** * Properties *)

(** ** Strings *)

Lemma str_eqb_eq (a b : str) : str_eqb a b = true <-> a = b.
Proof.
  revert b. induction a as [|x a IH]; intros [|y b]; simpl; split; try congruence.
  - intros H. apply andb_true_iff in H as [Hx Hr].
    apply N.eqb_eq in Hx. apply IH in Hr. congruence.
  - intros [= -> ->]. rewrite N.eqb_refl. simpl. now apply IH.
Qed.

Lemma str_eqb_refl (a : str) : str_eqb a a = true.
Proof. now apply str_eqb_eq. Qed.

Lemma py_find_spec (c : N) (s : str) :
  (py_find c s = (-1)%Z /\ ~ In c s) \/
  (exists i, py_find c s = Z.of_nat i /\ is_first c s i).
Proof.
  induction s as [|x r IH]; simpl.
  - left. split; [reflexivity | tauto].
  - destruct (N.eqb_spec x c) as [->|Hne].
    + right. exists 0%nat. split; [reflexivity|]. split; [reflexivity|]. intros k Hk. lia.
    + destruct IH as [[Hf Hn] | [i [Hf [Hi Hmin]]]].
      * left. rewrite Hf. simpl. split; [reflexivity|]. intros [H|H]; [congruence | tauto].
      * right. exists (S i). rewrite Hf.
        destruct (Z.ltb_spec (Z.of_nat i) 0); [lia|].
        split; [lia|]. split; [exact Hi|].
        intros [|k] Hk; simpl; [congruence|]. apply Hmin. lia.
Qed.

Lemma py_rfind_spec (c : N) (s : str) :
  (py_rfind c s = (-1)%Z /\ ~ In c s) \/
  (exists j, py_rfind c s = Z.of_nat j /\ is_last c s j).
Proof.
  induction s as [|x r IH]; simpl.
  - left. split; [reflexivity | tauto].
  - destruct IH as [[Hf Hn] | [j [Hf [Hj Hmax]]]].
    + rewrite Hf. simpl. destruct (N.eqb_spec x c) as [->|Hne].
      * right. exists 0%nat. split; [reflexivity|]. split; [reflexivity|].
        intros [|k] Hk; [lia|]. simpl. intros Hk'.
        apply Hn. eapply list_elem_of_In, list_elem_of_lookup_2, Hk'.
      * left. split; [reflexivity|]. intros [H|H]; [congruence | tauto].
    + right. exists (S j). rewrite Hf.
      destruct (Z.leb_spec 0 (Z.of_nat j)); [|lia].
      split; [lia|]. split; [exact Hj|].
      intros [|k] Hk; [lia|]. simpl. apply Hmax. lia.
Qed.

Lemma is_substring_char (c : N) (s : str) :
  is_substring [c] s = true <-> In c s.
Proof.
  induction s as [|x r IH]; simpl.
  - split; [discriminate | tauto].
  - destruct (N.eqb_spec c x) as [->|Hne].
    + split; [intros _; now left | reflexivity].
    + rewrite IH. split; [now right | intros [H|H]; [congruence | exact H]].
Qed.

Lemma py_slice_range {A : Type} (s : list A) (i j : nat) :
  (i < length s)%nat -> (j < length s)%nat ->
  py_slice s (Z.of_nat i) (Z.of_nat j + 1) = take (S j - i) (drop i s).
Proof.
  intros Hi Hj. unfold py_slice, slice_bound.
  destruct (Z.ltb_spec (Z.of_nat i) 0); [lia|].
  destruct (Z.ltb_spec (Z.of_nat j + 1) 0); [lia|].
  rewrite !Z.min_l by lia.
  replace (Z.to_nat (Z.of_nat i)) with i by lia.
  replace (Z.to_nat (Z.of_nat j + 1 - Z.of_nat i)) with (S j - i)%nat by lia.
  reflexivity.
Qed.

(** ** The decoder consumes its input and has enough fuel *)

Lemma skip_ws_length (s : str) : (length (skip_ws s) <= length s)%nat.
Proof.
  induction s as [|c r IH]; simpl; [lia|].
  destruct (is_ws c); simpl; lia.
Qed.

Lemma scanstring_consumes :
  forall n (s acc k rest : str),
    (length s <= n)%nat ->
    scanstring s acc = POk k rest -> (length rest < length s)%nat.
Proof.
  induction n as [|n IH]; intros s acc k rest Hn H.
  - destruct s; [discriminate | simpl in Hn; lia].
  - destruct s as [|c r]; [discriminate|].
    simpl in H. simpl in Hn.
    destruct (c =? 34); [injection H as <- <-; simpl; lia|].
    destruct (c =? 92).
    + destruct r as [|e r1]; [discriminate|].
      destruct (e =? 117).
      * destruct r1 as [|h1 [|h2 [|h3 [|h4 r2]]]]; try discriminate.
        destruct (hex4 h1 h2 h3 h4) as [u|]; [|discriminate].
        simpl in Hn |- *.
        assert (Hr2 : forall a, scanstring r2 a = POk k rest ->
                                (length rest < length r2)%nat)
          by (intros a Ha; eapply IH; [|exact Ha]; lia).
        destruct (is_high_surrogate u).
        -- destruct r2 as [|b [|v r3]];
             try (apply Hr2 in H; simpl in H; lia).
           destruct ((b =? 92) && (v =? 117)).
           ++ destruct r3 as [|g1 [|g2 [|g3 [|g4 r4]]]]; try discriminate.
              destruct (hex4 g1 g2 g3 g4) as [u2|]; [|discriminate].
              destruct (is_low_surrogate u2).
              ** apply IH in H; simpl in *; lia.
              ** apply Hr2 in H; simpl in *; lia.
           ++ apply Hr2 in H; simpl in *; lia.
        -- apply Hr2 in H. lia.
      * destruct (backslash e); [|discriminate].
        apply IH in H; simpl in *; lia.
    + destruct (c <? 32); [discriminate|].
      apply IH in H; simpl; lia.
Qed.

Lemma scanstring_no_fuel (s acc : str) : scanstring s acc <> PFuel.
Proof.
  remember (length s) as n eqn:Hn.
  assert (Hle : (length s <= n)%nat) by lia. clear Hn.
  revert s acc Hle. induction n as [|n IH]; intros s acc Hle.
  - destruct s; [discriminate | simpl in Hle; lia].
  - destruct s as [|c r]; [discriminate|].
    simpl. simpl in Hle.
    destruct (c =? 34); [discriminate|].
    destruct (c =? 92).
    + destruct r as [|e r1]; [discriminate|].
      destruct (e =? 117).
      * destruct r1 as [|h1 [|h2 [|h3 [|h4 r2]]]]; try discriminate.
        destruct (hex4 h1 h2 h3 h4) as [u|]; [|discriminate].
        simpl in Hle.
        assert (Hr2 : forall a, scanstring r2 a <> PFuel)
          by (intros a; apply IH; lia).
        destruct (is_high_surrogate u); [|apply Hr2].
        destruct r2 as [|b [|v r3]]; try apply Hr2.
        destruct ((b =? 92) && (v =? 117)); [|apply Hr2].
        destruct r3 as [|g1 [|g2 [|g3 [|g4 r4]]]]; try discriminate.
        destruct (hex4 g1 g2 g3 g4) as [u2|]; [|discriminate].
        destruct (is_low_surrogate u2); [|apply Hr2].
        apply IH. simpl in Hle. lia.
      * destruct (backslash e); [|discriminate].
        apply IH. simpl in Hle. lia.
    + destruct (c <? 32); [discriminate|].
      apply IH. lia.
Qed.

Lemma span_digits_length (s : str) :
  (length (snd (span_digits s)) <= length s)%nat.
Proof.
  induction s as [|c r IH]; simpl; [lia|].
  destruct (is_digit c); simpl; [|lia].
  destruct (span_digits r); simpl in *; lia.
Qed.

Lemma match_integer_consumes (s lx r : str) :
  match_integer s = Some (lx, r) -> (length r < length s)%nat.
Proof.
  unfold match_integer.
  destruct s as [|c t]; [discriminate|].
  destruct (c =? 45).
  - destruct t as [|c' t']; [discriminate|].
    destruct (c' =? 48); [intros [= _ <-]; simpl; lia|].
    destruct (is_digit c'); [|discriminate].
    pose proof (span_digits_length t') as Hl.
    destruct (span_digits t') as [ds rest]. intros [= _ <-]. simpl in *. lia.
  - destruct (c =? 48); [intros [= _ <-]; simpl; lia|].
    destruct (is_digit c); [|discriminate].
    pose proof (span_digits_length t) as Hl.
    destruct (span_digits t) as [ds rest]. intros [= _ <-]. simpl in *. lia.
Qed.

Lemma match_frac_length (s : str) :
  (length (snd (match_frac s)) <= length s)%nat.
Proof.
  destruct s as [|c r]; simpl; [lia|].
  destruct (c =? 46); simpl; [|lia].
  pose proof (span_digits_length r) as Hl.
  destruct (span_digits r) as [[|d ds] rest]; simpl in *; lia.
Qed.

Lemma match_exp_length (s : str) :
  (length (snd (match_exp s)) <= length s)%nat.
Proof.
  destruct s as [|c r]; simpl; [lia|].
  destruct ((c =? 101) || (c =? 69)); simpl; [|lia].
  destruct r as [|g r']; simpl; [lia|].
  destruct ((g =? 45) || (g =? 43)).
  - pose proof (span_digits_length r') as Hl.
    destruct (span_digits r') as [[|d ds] rest]; simpl in *; lia.
  - pose proof (span_digits_length (g :: r')) as Hl.
    destruct (span_digits (g :: r')) as [[|d ds] rest]; simpl in *; lia.
Qed.

Lemma match_number_consumes (s integer tail r : str) :
  match_number s = Some (integer, tail, r) -> (length r < length s)%nat.
Proof.
  unfold match_number.
  destruct (match_integer s) as [[i r1]|] eqn:Hi; [|discriminate].
  apply match_integer_consumes in Hi.
  pose proof (match_frac_length r1) as Hf.
  destruct (match_frac r1) as [frac r2].
  pose proof (match_exp_length r2) as He.
  destruct (match_exp r2) as [exp r3].
  intros [= _ _ <-]. simpl in *. lia.
Qed.

Lemma strip_prefix_length (p s r : str) :
  strip_prefix p s = Some r -> (length r + length p = length s)%nat.
Proof.
  revert s. induction p as [|a p IH]; intros [|b s]; simpl; try discriminate.
  - intros [= <-]. reflexivity.
  - intros [= <-]. simpl. lia.
  - destruct (a =? b); [|discriminate]. intros H. apply IH in H. lia.
Qed.

Lemma scan_constant_consumes (m : nat) (s : str) (v : pyval) (r : str) :
  scan_constant m s = POk v r -> (length r < length s)%nat.
Proof.
  unfold scan_constant.
  repeat match goal with
  | |- context [strip_prefix ?p s] =>
      let H := fresh "H" in
      destruct (strip_prefix p s) eqn:H;
      [apply strip_prefix_length in H; intros [= _ <-];
       unfold lit in H; simpl in H; lia|]
  | |- context [match_number s] =>
      let H := fresh "H" in
      destruct (match_number s) as [[[integer tail] r0]|] eqn:H;
      [apply match_number_consumes in H;
       destruct tail; [destruct (int_refuses m integer); [discriminate|]|];
       intros [= _ <-]; exact H|]
  end.
  discriminate.
Qed.

Lemma scan_constant_no_fuel (m : nat) (s : str) : scan_constant m s <> PFuel.
Proof.
  unfold scan_constant.
  repeat match goal with
  | |- context [strip_prefix ?p s] => destruct (strip_prefix p s); [discriminate|]
  | |- context [match_number s] =>
      destruct (match_number s) as [[[integer tail] r0]|];
      [destruct tail; [destruct (int_refuses m integer)|]; discriminate|]
  end.
  discriminate.
Qed.

Lemma scan_consumes (m fuel : nat) :
  (forall k s v r, scan_once m fuel k s = POk v r -> (length r < length s)%nat) /\
  (forall k s p v r, object_pairs m fuel k s p = POk v r -> (length r < length s)%nat) /\
  (forall k s l v r, array_items m fuel k s l = POk v r -> (length r < length s)%nat).
Proof.
  induction fuel as [|f (IHs & IHo & IHa)].
  - repeat split; intros; discriminate.
  - split; [|split].
    + intros k s v r. simpl. destruct s as [|c t]; [discriminate|].
      destruct (c =? 34).
      { destruct (scanstring t []) as [key rest| |] eqn:Hk; try discriminate.
        intros [= _ <-]. eapply scanstring_consumes in Hk; [|reflexivity]. simpl. lia. }
      destruct (c =? 123).
      { destruct k as [|d]; [discriminate|].
        pose proof (skip_ws_length t) as Hw.
        destruct (skip_ws t) as [|c1 r1]; [discriminate|].
        destruct (c1 =? 125); [intros [= _ <-]; simpl in *; lia|].
        destruct (c1 =? 34); [|discriminate].
        intros H. apply IHo in H. simpl in *. lia. }
      destruct (c =? 91).
      { destruct k as [|d]; [discriminate|].
        pose proof (skip_ws_length t) as Hw.
        destruct (skip_ws t) as [|c1 r1]; [discriminate|].
        destruct (c1 =? 93); [intros [= _ <-]; simpl in *; lia|].
        intros H. apply IHa in H. simpl in *. lia. }
      apply scan_constant_consumes.
    + intros k s p v r. simpl.
      destruct (scanstring s []) as [key rest| |] eqn:Hk; try discriminate.
      eapply scanstring_consumes in Hk; [|reflexivity].
      pose proof (skip_ws_length rest) as Hw.
      destruct (skip_ws rest) as [|c rest1]; [discriminate|].
      destruct (c =? 58); [|discriminate].
      pose proof (skip_ws_length rest1) as Hw1.
      destruct (scan_once m f k (skip_ws rest1)) as [value rest2| |] eqn:Hv;
        try discriminate.
      apply IHs in Hv.
      pose proof (skip_ws_length rest2) as Hw2.
      destruct (skip_ws rest2) as [|c2 rest3]; [discriminate|].
      destruct (c2 =? 125); [intros [= _ <-]; simpl in *; lia|].
      destruct (c2 =? 44); [|discriminate].
      pose proof (skip_ws_length rest3) as Hw3.
      destruct (skip_ws rest3) as [|c3 rest4]; [discriminate|].
      destruct (c3 =? 34); [|discriminate].
      intros H. apply IHo in H. simpl in *. lia.
    + intros k s l v r. simpl.
      destruct (scan_once m f k s) as [value rest| |] eqn:Hv; try discriminate.
      apply IHs in Hv.
      pose proof (skip_ws_length rest) as Hw.
      destruct (skip_ws rest) as [|c rest1]; [discriminate|].
      destruct (c =? 93); [intros [= _ <-]; simpl in *; lia|].
      destruct (c =? 44); [|discriminate].
      pose proof (skip_ws_length rest1) as Hw1.
      intros H. apply IHa in H. simpl in *. lia.
Qed.

Lemma scan_no_fuel (m fuel : nat) :
  (forall k s, (2 * length s < fuel)%nat -> scan_once m fuel k s <> PFuel) /\
  (forall k s p, (2 * length s + 1 < fuel)%nat -> object_pairs m fuel k s p <> PFuel) /\
  (forall k s l, (2 * length s + 1 < fuel)%nat -> array_items m fuel k s l <> PFuel).
Proof.
  induction fuel as [|f (IHs & IHo & IHa)].
  - repeat split; intros; lia.
  - split; [|split].
    + intros k s Hf. simpl. destruct s as [|c t]; [discriminate|].
      simpl in Hf.
      destruct (c =? 34).
      { pose proof (scanstring_no_fuel t []) as Hn.
        destruct (scanstring t []); congruence. }
      destruct (c =? 123).
      { destruct k as [|d]; [discriminate|].
        pose proof (skip_ws_length t) as Hw.
        destruct (skip_ws t) as [|c1 r1]; [discriminate|].
        destruct (c1 =? 125); [discriminate|].
        destruct (c1 =? 34); [|discriminate].
        apply IHo. simpl in *. lia. }
      destruct (c =? 91).
      { destruct k as [|d]; [discriminate|].
        pose proof (skip_ws_length t) as Hw.
        destruct (skip_ws t) as [|c1 r1]; [discriminate|].
        destruct (c1 =? 93); [discriminate|].
        apply IHa. simpl in *. lia. }
      apply scan_constant_no_fuel.
    + intros k s p Hf. simpl.
      destruct (scanstring s []) as [key rest| |] eqn:Hk; try discriminate.
      2:{ now apply scanstring_no_fuel in Hk. }
      eapply scanstring_consumes in Hk; [|reflexivity].
      pose proof (skip_ws_length rest) as Hw.
      destruct (skip_ws rest) as [|c rest1]; [discriminate|].
      destruct (c =? 58); [|discriminate].
      pose proof (skip_ws_length rest1) as Hw1.
      assert (Hs : scan_once m f k (skip_ws rest1) <> PFuel)
        by (apply IHs; simpl in *; lia).
      destruct (scan_once m f k (skip_ws rest1)) as [value rest2| |] eqn:Hv;
        try congruence.
      apply (proj1 (scan_consumes m f)) in Hv.
      pose proof (skip_ws_length rest2) as Hw2.
      destruct (skip_ws rest2) as [|c2 rest3]; [discriminate|].
      destruct (c2 =? 125); [discriminate|].
      destruct (c2 =? 44); [|discriminate].
      pose proof (skip_ws_length rest3) as Hw3.
      destruct (skip_ws rest3) as [|c3 rest4]; [discriminate|].
      destruct (c3 =? 34); [|discriminate].
      apply IHo. simpl in *. lia.
    + intros k s l Hf. simpl.
      assert (Hs : scan_once m f k s <> PFuel) by (apply IHs; lia).
      destruct (scan_once m f k s) as [value rest| |] eqn:Hv; try congruence.
      apply (proj1 (scan_consumes m f)) in Hv.
      pose proof (skip_ws_length rest) as Hw.
      destruct (skip_ws rest) as [|c rest1]; [discriminate|].
      destruct (c =? 93); [discriminate|].
      destruct (c =? 44); [|discriminate].
      pose proof (skip_ws_length rest1) as Hw1.
      apply IHa. simpl in *. lia.
Qed.

Lemma json_decode_fuel (k m : nat) (s : str) : json_decode k m s <> PFuel.
Proof.
  unfold json_decode.
  assert (H : scan_once m (json_fuel s) k (skip_ws s) <> PFuel).
  { apply (proj1 (scan_no_fuel _ _)). unfold json_fuel.
    pose proof (skip_ws_length s). lia. }
  destruct (scan_once m (json_fuel s) k (skip_ws s)) as [v rest| |]; try congruence.
  destruct (skip_ws rest); discriminate.
Qed.

(** What [json_loads] raises is one of its three errors. *)
Lemma scanstring_errors (s acc : str) (e : exn) :
  scanstring s acc = PErr e -> e = JSONDecodeError.
Proof.
  remember (length s) as n eqn:Hn.
  assert (Hle : (length s <= n)%nat) by lia. clear Hn.
  revert s acc Hle. induction n as [|n IH]; intros s acc Hle.
  - destruct s; [simpl; congruence | simpl in Hle; lia].
  - destruct s as [|c r]; [simpl; congruence|].
    simpl. simpl in Hle.
    destruct (c =? 34); [discriminate|].
    destruct (c =? 92).
    + destruct r as [|x r1]; [congruence|].
      destruct (x =? 117).
      * destruct r1 as [|h1 [|h2 [|h3 [|h4 r2]]]]; try congruence.
        destruct (hex4 h1 h2 h3 h4) as [u|]; [|congruence].
        simpl in Hle.
        assert (Hr2 : forall a, scanstring r2 a = PErr e -> e = JSONDecodeError)
          by (intros a; apply IH; lia).
        destruct (is_high_surrogate u); [|apply Hr2].
        destruct r2 as [|b [|v r3]]; try apply Hr2.
        destruct ((b =? 92) && (v =? 117)); [|apply Hr2].
        destruct r3 as [|g1 [|g2 [|g3 [|g4 r4]]]]; try congruence.
        destruct (hex4 g1 g2 g3 g4) as [u2|]; [|congruence].
        destruct (is_low_surrogate u2); [|apply Hr2].
        apply IH. simpl in Hle. lia.
      * destruct (backslash x); [|congruence].
        apply IH. simpl in Hle. lia.
    + destruct (c <? 32); [congruence|].
      apply IH. lia.
Qed.

Lemma object_pairs_dict (m fuel : nat) :
  forall k s p v r, object_pairs m fuel k s p = POk v r -> exists d, v = PDict d.
Proof.
  induction fuel as [|f IH]; intros k s p v r; simpl; [discriminate|].
  destruct (scanstring s []) as [key rest| |]; try discriminate.
  destruct (skip_ws rest) as [|c rest1]; [discriminate|].
  destruct (c =? 58); [|discriminate].
  destruct (scan_once m f k (skip_ws rest1)) as [value rest2| |]; try discriminate.
  destruct (skip_ws rest2) as [|c2 rest3]; [discriminate|].
  destruct (c2 =? 125); [intros [= <- _]; eauto|].
  destruct (c2 =? 44); [|discriminate].
  destruct (skip_ws rest3) as [|c3 rest4]; [discriminate|].
  destruct (c3 =? 34); [|discriminate].
  apply IH.
Qed.

Lemma json_loads_brace (k m : nat) (t : str) (v : pyval) :
  json_loads k m (123 :: t) = Returns v -> exists d, v = PDict d.
Proof.
  unfold json_loads. cbn [N.eqb Pos.eqb]. unfold json_decode, json_fuel.
  change (skip_ws (123 :: t)) with (123 :: t).
  replace (2 * length (123%N :: t) + 2)%nat with (S (2 * length t + 3)) by (simpl; lia).
  simpl scan_once.
  destruct k as [|d0]; [discriminate|].
  destruct (skip_ws t) as [|c1 r1]; [discriminate|].
  destruct (c1 =? 125).
  { destruct (skip_ws r1); [|discriminate]. intros [= <-]. eauto. }
  destruct (c1 =? 34); [|discriminate].
  destruct (object_pairs _ _ _ r1 []) as [v' rest| |] eqn:Ho; try discriminate.
  apply object_pairs_dict in Ho as [d ->].
  destruct (skip_ws rest); [|discriminate]. intros [= <-]. eauto.
Qed.

(** ** Runs of the Collector *)

Lemma log_nil st : log st [] = st.
Proof. destruct st. unfold log. simpl. now rewrite app_nil_r. Qed.

Lemma log_log st a b : log (log st a) b = log st (a ++ b).
Proof. unfold log. simpl. now rewrite <- app_assoc. Qed.

Lemma is_article_processed_run (w : World) (url : str) (st : State) :
  is_article_processed w url st =
  (Returns (seen w (table st) url), log st [EvGetItem url]).
Proof.
  unfold is_article_processed, try_except, bind, emit, seen, log. simpl.
  destruct (get_item_error w url); reflexivity.
Qed.

Lemma collect_entries_run (w : World) (limit : Z) (entries : list Entry) :
  forall fetched papers urls st,
    let taken := take (Z.to_nat (limit - fetched))
                   (List.filter (is_new w (table st)) entries) in
    exists n,
      collect_entries w entries limit fetched papers urls st =
      (Returns (papers ++ List.map candidate_of_entry taken,
                urls ++ List.map entry_link taken),
       log st (List.map EvGetItem (take n (List.map entry_link entries)))).
Proof.
  induction entries as [|e rest IH]; intros fetched papers urls st taken.
  - exists 0%nat. subst taken. simpl. rewrite take_nil. simpl.
    rewrite !app_nil_r, log_nil. reflexivity.
  - simpl collect_entries.
    destruct (Z.geb_spec fetched limit) as [Hge|Hlt].
    + exists 0%nat. subst taken.
      replace (Z.to_nat (limit - fetched)) with 0%nat by lia.
      simpl. rewrite !app_nil_r, log_nil. reflexivity.
    + unfold bind at 1. rewrite is_article_processed_run.
      subst taken. simpl List.filter.
      change (is_new w (table st) e) with (negb (seen w (table st) (entry_link e))).
      destruct (seen w (table st) (entry_link e)) eqn:Hs; simpl negb; cbv iota.
      * destruct (IH fetched papers urls (log st [EvGetItem (entry_link e)]))
          as [n Hn].
        cbn [table log] in Hn.
        exists (S n). rewrite Hn. simpl. rewrite log_log. reflexivity.
      * destruct (IH (fetched + 1)%Z
                    (papers ++ [candidate_of_entry e])
                    (urls ++ [entry_link e])
                    (log st [EvGetItem (entry_link e)])) as [n Hn].
        cbn [table log] in Hn.
        exists (S n). rewrite Hn. rewrite log_log.
        replace (Z.to_nat (limit - fetched))
          with (S (Z.to_nat (limit - (fetched + 1)))) by lia.
        simpl. rewrite <- !app_assoc. reflexivity.
Qed.

Lemma collect_feeds_run (w : World) (limit : Z) (feed_urls : list str) :
  forall papers urls st,
    exists evs,
      collect_feeds w feed_urls limit papers urls st =
      (Returns (papers ++ List.map candidate_of_entry
                            (batch w (table st) limit feed_urls),
                urls ++ List.map entry_link
                          (batch w (table st) limit feed_urls)),
       log st evs)
      /\ forallb is_collect_event evs = true.
Proof.
  induction feed_urls as [|u rest IH]; intros papers urls st.
  - exists []. simpl. rewrite !app_nil_r, log_nil. split; reflexivity.
  - simpl collect_feeds. unfold bind at 1, emit.
    change {| table := table st; trace := trace st ++ [EvFeedParse u] |}
      with (log st [EvFeedParse u]).
    unfold batch. simpl flat_map. fold (batch w (table st) limit rest).
    unfold batch_of_feed at 1 2, usable_entries.
    destruct (feedparser_parse w u) as [e|bozo entries].
    { destruct (IH papers urls (log st [EvFeedParse u])) as [evs [H Hev]].
      exists (EvFeedParse u :: evs). rewrite H, log_log. simpl.
      rewrite take_nil. simpl. split; [reflexivity | exact Hev]. }
    destruct bozo.
    { destruct (IH papers urls (log st [EvFeedParse u])) as [evs [H Hev]].
      exists (EvFeedParse u :: evs). rewrite H, log_log. simpl.
      rewrite take_nil. simpl. split; [reflexivity | exact Hev]. }
    destruct entries as [|e0 es].
    { destruct (IH papers urls (log st [EvFeedParse u])) as [evs [H Hev]].
      exists (EvFeedParse u :: evs). rewrite H, log_log. simpl.
      rewrite take_nil. simpl. split; [reflexivity | exact Hev]. }
    unfold bind.
    destruct (collect_entries_run w limit (e0 :: es) 0%Z papers urls
                (log st [EvFeedParse u])) as [n Hn].
    rewrite Hn. simpl table. rewrite Z.sub_0_r.
    set (T := take (Z.to_nat limit) (List.filter (is_new w (table st)) (e0 :: es))).
    destruct (IH (papers ++ List.map candidate_of_entry T)
                 (urls ++ List.map entry_link T)
                 (log (log st [EvFeedParse u])
                    (List.map EvGetItem (take n (List.map entry_link (e0 :: es))))))
      as [evs [H Hev]].
    rewrite H. simpl table.
    exists (EvFeedParse u :: List.map EvGetItem (take n (List.map entry_link (e0 :: es))) ++ evs).
    rewrite !log_log. rewrite !List.map_app, <- !app_assoc.
    split; [reflexivity|].
    simpl. rewrite forallb_app, Hev, andb_true_r.
    apply forallb_forall. intros x Hx. apply in_map_iff in Hx as [y [<- _]].
    reflexivity.
Qed.

(** Where the Collector stops in a feed. *)
Lemma new_among_0 (w : World) (tbl : gset str) (entries : list Entry) :
  new_among w tbl entries 0 = 0%Z.
Proof. unfold new_among. now rewrite take_0. Qed.

Lemma new_among_S (w : World) (tbl : gset str) (e : Entry)
    (rest : list Entry) (m : nat) :
  new_among w tbl (e :: rest) (S m)
  = ((if is_new w tbl e then 1 else 0) + new_among w tbl rest m)%Z.
Proof.
  unfold new_among. cbn [take List.filter].
  destruct (is_new w tbl e); cbn [length]; lia.
Qed.

Lemma collect_entries_stops (w : World) (limit : Z) (entries : list Entry) :
  forall fetched papers urls st,
    let taken := take (Z.to_nat (limit - fetched))
                   (List.filter (is_new w (table st)) entries) in
    exists n,
      (n <= length entries)%nat
      /\ (forall m, (m < n)%nat ->
                    (fetched + new_among w (table st) entries m < limit)%Z)
      /\ ((n < length entries)%nat ->
          (limit <= fetched + new_among w (table st) entries n)%Z)
      /\ collect_entries w entries limit fetched papers urls st =
         (Returns (papers ++ List.map candidate_of_entry taken,
                   urls ++ List.map entry_link taken),
          log st (List.map EvGetItem (take n (List.map entry_link entries)))).
Proof.
  induction entries as [|e rest IH]; intros fetched papers urls st taken.
  - exists 0%nat. subst taken. simpl. rewrite take_nil. simpl.
    rewrite !app_nil_r, log_nil.
    split; [lia|]. split; [intros m Hm; lia|]. split; [lia | reflexivity].
  - simpl collect_entries.
    destruct (Z.geb_spec fetched limit) as [Hge|Hlt].
    + exists 0%nat. subst taken.
      replace (Z.to_nat (limit - fetched)) with 0%nat by lia.
      simpl. rewrite !app_nil_r, log_nil.
      split; [lia|]. split; [intros m Hm; lia|].
      split; [intros _; rewrite new_among_0; lia | reflexivity].
    + unfold bind at 1. rewrite is_article_processed_run.
      subst taken. simpl List.filter.
      pose proof (new_among_S w (table st) e rest) as HS.
      change (is_new w (table st) e)
        with (negb (seen w (table st) (entry_link e))) in *.
      destruct (seen w (table st) (entry_link e)) eqn:Hs; simpl negb in *;
        cbv iota.
      * destruct (IH fetched papers urls (log st [EvGetItem (entry_link e)]))
          as (n & Hle & Hbefore & Hat & Hn).
        cbn [table log] in Hn, Hbefore, Hat.
        exists (S n). split; [simpl; lia|]. split; [|split].
        -- intros [|m] Hm; [rewrite new_among_0; lia|].
           rewrite HS. specialize (Hbefore m ltac:(lia)). lia.
        -- intros Hlen. rewrite HS. simpl in Hlen.
           specialize (Hat ltac:(lia)). lia.
        -- rewrite Hn. simpl. rewrite log_log. reflexivity.
      * destruct (IH (fetched + 1)%Z
                    (papers ++ [candidate_of_entry e])
                    (urls ++ [entry_link e])
                    (log st [EvGetItem (entry_link e)]))
          as (n & Hle & Hbefore & Hat & Hn).
        cbn [table log] in Hn, Hbefore, Hat.
        exists (S n). split; [simpl; lia|]. split; [|split].
        -- intros [|m] Hm; [rewrite new_among_0; lia|].
           rewrite HS. specialize (Hbefore m ltac:(lia)). lia.
        -- intros Hlen. rewrite HS. simpl in Hlen.
           specialize (Hat ltac:(lia)). lia.
        -- rewrite Hn. rewrite log_log.
           replace (Z.to_nat (limit - fetched))
             with (S (Z.to_nat (limit - (fetched + 1)))) by lia.
           simpl. rewrite <- !app_assoc. reflexivity.
Qed.

Lemma stops_at_nil (w : World) (tbl : gset str) (limit : Z) :
  stops_at w tbl limit [] 0.
Proof. split; [reflexivity|]. split; intros; simpl in *; lia. Qed.

(** The calls of the Collector, feed by feed. *)
Lemma collect_feeds_calls (w : World) (limit : Z) (feed_urls : list str) :
  forall papers urls st,
    exists calls,
      Forall2 (feed_calls w (table st) limit) feed_urls calls
      /\ snd (collect_feeds w feed_urls limit papers urls st)
         = log st (concat calls).
Proof.
  induction feed_urls as [|u rest IH]; intros papers urls st.
  - exists []. split; [constructor|]. simpl. now rewrite log_nil.
  - simpl collect_feeds. unfold bind at 1, emit.
    change {| table := table st; trace := trace st ++ [EvFeedParse u] |}
      with (log st [EvFeedParse u]).
    assert (Hskip : usable_entries w u = [] ->
              forall p l,
              exists calls,
                Forall2 (feed_calls w (table st) limit) (u :: rest) calls
                /\ snd (collect_feeds w rest limit p l (log st [EvFeedParse u]))
                   = log st (concat calls)).
    { intros Hu p l.
      destruct (IH p l (log st [EvFeedParse u])) as (calls & Hc & Hs).
      exists ([EvFeedParse u] :: calls). split.
      - constructor; [|exact Hc]. exists 0%nat. rewrite Hu.
        split; [apply stops_at_nil | reflexivity].
      - rewrite Hs, log_log. reflexivity. }
    unfold usable_entries in Hskip.
    destruct (feedparser_parse w u) as [e|bozo entries] eqn:Hfeed;
      [now apply Hskip|].
    destruct bozo; [now apply Hskip|].
    destruct entries as [|e0 es]; [now apply Hskip|]. clear Hskip.
    unfold bind.
    destruct (collect_entries_stops w limit (e0 :: es) 0%Z papers urls
                (log st [EvFeedParse u])) as (n & Hle & Hbefore & Hat & Hn).
    rewrite Hn. cbn [table log] in Hbefore, Hat.
    match goal with
    | |- context [collect_feeds w rest limit ?p ?l ?s] =>
        destruct (IH p l s) as (calls & Hc & Hs)
    end.
    cbn [table log] in Hc.
    exists ((EvFeedParse u
             :: List.map EvGetItem (take n (List.map entry_link (e0 :: es))))
            :: calls).
    split.
    + constructor; [|exact Hc]. exists n. unfold usable_entries. rewrite Hfeed.
      split; [|reflexivity].
      split; [exact Hle|]. split.
      * intros m Hm. specialize (Hbefore m Hm). lia.
      * intros Hlen. specialize (Hat Hlen). lia.
    + rewrite Hs, !log_log. reflexivity.
Qed.

(** ** Runs of the Selector, the Notifier and the handler *)

Lemma mark_article_as_processed_run (w : World) (url : str) (st : State) :
  mark_article_as_processed w url st =
  (Returns tt, {| table := marked w (table st) url;
                  trace := trace st ++ [EvPutItem url] |}).
Proof.
  unfold mark_article_as_processed, try_except, bind, emit, marked. simpl.
  destruct (put_item_error w url); reflexivity.
Qed.

Lemma mark_all_run (w : World) (urls : list str) :
  forall st,
    mark_all w urls st =
    (Returns tt, {| table := marked_all w urls (table st);
                    trace := trace st ++ List.map EvPutItem urls |}).
Proof.
  induction urls as [|u rest IH]; intros st; simpl.
  - unfold ret. rewrite app_nil_r. now destruct st.
  - unfold bind. rewrite mark_article_as_processed_run, IH. simpl.
    rewrite <- app_assoc. reflexivity.
Qed.

Lemma elem_of_marked_all (w : World) (urls : list str) :
  forall (tbl : gset str) (u : str),
    u ∈ marked_all w urls tbl <->
    u ∈ tbl \/ (In u urls /\ put_item_error w u = None).
Proof.
  induction urls as [|x rest IH]; intros tbl u; simpl.
  - tauto.
  - rewrite IH. unfold marked.
    destruct (put_item_error w x) eqn:Hx.
    + split; [tauto|]. intros [H|[[->|H] Hn]]; [tauto|congruence|tauto].
    + rewrite elem_of_union, elem_of_singleton.
      split.
      * intros [[->|H]|H]; [right; split; [now left | exact Hx]|tauto|tauto].
      * intros [H|[[->|H] Hn]]; tauto.
Qed.

Lemma analyze_run (w : World) (papers : list CandidatePaper)
    (t : TopicHierarchy) (st : State) :
  analyze_papers_with_bedrock w papers t st =
  (analysis_of w papers t, log st [EvInvokeModel papers]).
Proof.
  unfold analyze_papers_with_bedrock, analysis_of, try_except, bind, emit,
    lift, raise, Exception, obind, log. simpl.
  destruct (invoke_model w papers t) as [x|e]; [|reflexivity].
  destruct (json_loads_body w x) as [b|e]; [|reflexivity].
  destruct (py_getitem b (lit "content")) as [c|e]; [|reflexivity].
  destruct (py_getitem0 c) as [f|e]; [|reflexivity].
  destruct (py_getitem f (lit "text")) as [r|e]; [|reflexivity].
  destruct (parse_result_text w r); reflexivity.
Qed.

Lemma post_run (cfg : Config) (w : World) (sel : pyval) (st : State) :
  post_summary_to_teams cfg w sel st =
  (post_result cfg w sel, log st (post_events cfg w sel)).
Proof.
  unfold post_summary_to_teams, post_result, post_events, card_of, webhook_of,
    delivery_result, raise_for_status, try_except, bind, emit, lift, ret, obind, log.
  simpl.
  destruct (py_iter sel) as [papers|e]; [|reflexivity].
  destruct (card_body_loop w 0 papers []) as [els|e]; [|reflexivity].
  destruct (TEAMS_WEBHOOK_URL cfg) as [[|c url]|]; try reflexivity.
  simpl. rewrite <- app_assoc. simpl.
  destruct (requests_post w (c :: url) (card_payload els)) as [sc|e].
  - destruct ((400 <=? sc)%Z && (sc <? 600)%Z); reflexivity.
  - destruct (is_RequestException e); reflexivity.
Qed.

Lemma notify_step (cfg : Config) (w : World) (sel : pyval) (st : State) :
  (if py_truthy sel
   then try_except
          (let* success := post_summary_to_teams cfg w sel in ret tt)
          Exception (fun _ => ret tt)
   else ret tt) st =
  (Returns tt, log st (notify_events cfg w sel)).
Proof.
  unfold notify_events. destruct (py_truthy sel).
  - unfold try_except, bind. rewrite post_run.
    destruct (post_result cfg w sel); reflexivity.
  - unfold ret. now rewrite log_nil.
Qed.

Lemma select_step (w : World) (t : TopicHierarchy)
    (papers : list CandidatePaper) (st : State) :
  try_except
    (let* analysis_result := analyze_papers_with_bedrock w papers t in
     lift (py_get analysis_result (lit "selected_papers") (PList [])))
    Exception (fun _ => ret (PList [])) st =
  (Returns (selected_of (analysis_of w papers t)),
   log st [EvInvokeModel papers]).
Proof.
  unfold try_except, bind. rewrite analyze_run. unfold selected_of.
  destruct (analysis_of w papers t) as [r|e]; [|reflexivity].
  unfold lift. destruct (py_get r (lit "selected_papers") (PList [])); reflexivity.
Qed.

Lemma analyze_notify_mark_run (cfg : Config) (w : World) (t : TopicHierarchy)
    (papers : list CandidatePaper) (urls : list str) (st : State) :
  analyze_notify_mark cfg w t papers urls st =
  (Returns (success_response papers),
   {| table := marked_all w urls (table st);
      trace := trace st
               ++ [EvInvokeModel papers]
               ++ notify_events cfg w (selected_of (analysis_of w papers t))
               ++ List.map EvPutItem urls |}).
Proof.
  unfold analyze_notify_mark.
  unfold bind at 1. rewrite select_step.
  unfold bind at 1. rewrite notify_step.
  unfold bind at 1. rewrite mark_all_run.
  unfold ret, log. simpl. rewrite <- !app_assoc. reflexivity.
Qed.

(** ** The candidate batch *)

Lemma py_max_max (a b : Z) : py_max a b = Z.max a b.
Proof. unfold py_max. destruct (Z.gtb_spec b a); lia. Qed.

Lemma length_batch (w : World) (tbl : gset str) (limit : Z) (feeds : list str) :
  (length (batch w tbl limit feeds) <= length feeds * Z.to_nat limit)%nat.
Proof.
  induction feeds as [|u rest IH]; simpl; [lia|].
  unfold batch in *. simpl. rewrite length_app.
  unfold batch_of_feed at 1. rewrite length_take. lia.
Qed.

Lemma batch_new (w : World) (tbl : gset str) (limit : Z) (feeds : list str)
    (e : Entry) :
  In e (batch w tbl limit feeds) -> is_new w tbl e = true.
Proof.
  unfold batch. rewrite in_flat_map. intros [u [_ He]].
  unfold batch_of_feed in He.
  apply list_elem_of_In, elem_of_take in He as [i [He _]].
  apply list_elem_of_lookup_2, list_elem_of_In, filter_In in He. tauto.
Qed.

Lemma collect_run (w : World) (feeds : list str) (limit : Z) (st : State) :
  exists evs,
    collect_unprocessed_papers w feeds limit st =
    (Returns (List.map candidate_of_entry (batch w (table st) limit feeds),
              List.map entry_link (batch w (table st) limit feeds)),
     log st evs)
    /\ forallb is_collect_event evs = true.
Proof.
  unfold collect_unprocessed_papers.
  destruct (collect_feeds_run w limit feeds [] [] st) as [evs [H Hev]].
  exists evs. split; [exact H | exact Hev].
Qed.

Lemma collect_urls (w : World) (feeds : list str) (limit : Z) (st st' : State)
    (papers : list CandidatePaper) (urls : list str) :
  collect_unprocessed_papers w feeds limit st = (Returns (papers, urls), st') ->
  papers = List.map candidate_of_entry (batch w (table st) limit feeds)
  /\ urls = List.map entry_link (batch w (table st) limit feeds)
  /\ table st' = table st.
Proof.
  destruct (collect_run w feeds limit st) as [evs [H _]].
  rewrite H. intros [= <- <- <-]. repeat split.
Qed.

Lemma map_url_candidates (l : list Entry) :
  List.map paper_url (List.map candidate_of_entry l) = List.map entry_link l.
Proof. rewrite List.map_map. reflexivity. Qed.

Lemma filter_all {A : Type} (f : A -> bool) (l : list A) :
  forallb f l = true -> List.filter f l = l.
Proof.
  induction l as [|x l IH]; simpl; [reflexivity|].
  intros H. apply andb_true_iff in H as [Hx Hl]. rewrite Hx, IH; auto.
Qed.

Lemma take_all {A : Type} (n : nat) (l : list A) :
  (length l <= n)%nat -> take n l = l.
Proof. intros H. now apply take_ge. Qed.

Lemma occurrences_app (u : str) (a b : list str) :
  occurrences u (a ++ b) = (occurrences u a + occurrences u b)%nat.
Proof. unfold occurrences. now rewrite List.filter_app, length_app. Qed.

Lemma occurrences_new (w : World) (tbl : gset str) (u : str) (es : list Entry) :
  seen w tbl u = false ->
  occurrences u (List.map entry_link (List.filter (is_new w tbl) es)) =
  occurrences u (List.map entry_link es).
Proof.
  intros Hu. induction es as [|e es IH]; simpl; [reflexivity|].
  unfold is_new at 1. destruct (seen w tbl (entry_link e)) eqn:Hs; simpl.
  - rewrite IH. unfold occurrences. simpl.
    destruct (str_eqb u (entry_link e)) eqn:Heq; [|reflexivity].
    apply str_eqb_eq in Heq. congruence.
  - unfold occurrences in *. simpl.
    destruct (str_eqb u (entry_link e)); simpl; now rewrite IH.
Qed.

(** ** The handler *)

(** The handler, from a configuration that is ready and a collection that
    returned a batch that is not empty. *)
Lemma lambda_handler_run (cfg : Config) (w : World) (st st1 : State)
    (papers : list CandidatePaper) (urls : list str) :
  config_ready cfg ->
  collect_unprocessed_papers w (feed_urls_list_of cfg)
    (limit_per_feed_of (max_to_process_of cfg) (feed_urls_list_of cfg)) st
  = (Returns (papers, urls), st1) ->
  papers <> [] ->
  lambda_handler cfg w st =
  (Returns (success_response papers),
   {| table := marked_all w urls (table st1);
      trace := trace st1
               ++ [EvInvokeModel papers]
               ++ notify_events cfg w
                    (selected_of (analysis_of w papers (topic_hierarchy_of cfg)))
               ++ List.map EvPutItem urls |}).
Proof.
  intros (Haws & Hfeeds & Htopics) Hcollect Hne.
  unfold lambda_handler. rewrite Haws. cbn [negb]. cbv zeta.
  destruct (feed_urls_list_of cfg) as [|f fs] eqn:Hf; [congruence|].
  rewrite Htopics. cbn [negb].
  unfold bind at 1. rewrite Hcollect.
  destruct papers as [|p ps]; [congruence|].
  apply analyze_notify_mark_run.
Qed.

(** ** The response parser *)

Lemma is_substring_char_false (c : N) (s : str) :
  ~ In c s -> is_substring [c] s = false.
Proof.
  intros H. destruct (is_substring [c] s) eqn:E; [|reflexivity].
  apply is_substring_char in E. contradiction.
Qed.

(** The text [loads_result_text] hands to [json.loads]. *)
Lemma loads_result_text_braces (w : World) (text : str) :
  In 123 text -> In 125 text ->
  loads_result_text w (PStr text) =
  json_loads_or_raise w
    (py_slice text (py_find 123 text) (py_rfind 125 text + 1)).
Proof.
  intros Ho Hc. unfold loads_result_text. cbn [py_contains obind].
  rewrite (proj2 (is_substring_char 123 text) Ho). cbn [obind].
  rewrite (proj2 (is_substring_char 125 text) Hc). reflexivity.
Qed.

Lemma loads_result_text_whole (w : World) (text : str) :
  ~ In 123 text \/ ~ In 125 text ->
  loads_result_text w (PStr text) = json_loads_or_raise w text.
Proof.
  intros H. unfold loads_result_text. cbn [py_contains obind].
  destruct (is_substring [123] text) eqn:Ho; cbn [obind andb]; [|reflexivity].
  destruct H as [H|H].
  - apply is_substring_char in Ho. contradiction.
  - rewrite (is_substring_char_false _ _ H). reflexivity.
Qed.

Lemma first_in (c : N) (s : str) (i : nat) : is_first c s i -> In c s.
Proof. intros [H _]. eapply list_elem_of_In, list_elem_of_lookup_2, H. Qed.

Lemma last_in (c : N) (s : str) (j : nat) : is_last c s j -> In c s.
Proof. intros [H _]. eapply list_elem_of_In, list_elem_of_lookup_2, H. Qed.

Lemma is_first_unique (c : N) (s : str) (i i' : nat) :
  is_first c s i -> is_first c s i' -> i = i'.
Proof.
  intros [H1 M1] [H2 M2].
  destruct (Nat.lt_trichotomy i i') as [Hlt|[Heq|Hgt]]; [|exact Heq|].
  - exfalso. exact (M2 i Hlt H1).
  - exfalso. exact (M1 i' Hgt H2).
Qed.

Lemma is_last_unique (c : N) (s : str) (j j' : nat) :
  is_last c s j -> is_last c s j' -> j = j'.
Proof.
  intros [H1 M1] [H2 M2].
  destruct (Nat.lt_trichotomy j j') as [Hlt|[Heq|Hgt]]; [|exact Heq|].
  - exfalso. exact (M1 j' Hlt H2).
  - exfalso. exact (M2 j Hgt H1).
Qed.

(** With both braces in the text, the slice goes from the first opening
    brace to the last closing brace. *)
Lemma brace_slice (text : str) (i j : nat) :
  is_first 123 text i -> is_last 125 text j ->
  py_slice text (py_find 123 text) (py_rfind 125 text + 1)
  = take (S j - i) (drop i text).
Proof.
  intros Hi Hj.
  destruct (py_find_spec 123 text) as [[_ Hn]|[i' [Hf Hi']]];
    [exfalso; apply Hn; eapply first_in, Hi|].
  destruct (py_rfind_spec 125 text) as [[_ Hn]|[j' [Hr Hj']]];
    [exfalso; apply Hn; eapply last_in, Hj|].
  rewrite (is_first_unique _ _ _ _ Hi Hi'), (is_last_unique _ _ _ _ Hj Hj').
  rewrite Hf, Hr. apply py_slice_range.
  - destruct Hi' as [H _]. now apply lookup_lt_Some in H.
  - destruct Hj' as [H _]. now apply lookup_lt_Some in H.
Qed.

Lemma in_has_first (c : N) (s : str) : In c s -> exists i, is_first c s i.
Proof.
  intros Hin. destruct (py_find_spec c s) as [[_ Hn]|[i [_ Hi]]];
    [contradiction | eauto].
Qed.

Lemma in_has_last (c : N) (s : str) : In c s -> exists j, is_last c s j.
Proof.
  intros Hin. destruct (py_rfind_spec c s) as [[_ Hn]|[j [_ Hj]]];
    [contradiction | eauto].
Qed.

Lemma validate_dict (d : list (str * pyval)) :
  validate_analysis_data (PDict d) =
  Returns (match dict_get (lit "selected_papers") d with
           | Some (PList l) => PDict d
           | _ => empty_selection
           end).
Proof.
  unfold validate_analysis_data. cbn [py_contains obind].
  destruct (dict_get (lit "selected_papers") d) as [v|] eqn:Hg;
    cbn [negb obind py_getitem].
  - rewrite Hg. cbn [obind]. destruct v; reflexivity.
  - reflexivity.
Qed.

Lemma parse_result_text_loaded (w : World) (rt v : pyval) :
  loads_result_text w rt = Returns v ->
  parse_result_text w rt = otry (validate_analysis_data v) is_JSONDecodeError
                           (fun _ => Returns empty_selection).
Proof. intros H. unfold parse_result_text. rewrite H. reflexivity. Qed.

Lemma braces_or_not (text : str) :
  (In 123 text /\ In 125 text) \/ (~ In 123 text \/ ~ In 125 text).
Proof.
  destruct (in_dec N.eq_dec 123 text); destruct (in_dec N.eq_dec 125 text); tauto.
Qed.

Lemma validate_never_decode_error (v : pyval) :
  validate_analysis_data v <> Raises JSONDecodeError.
Proof.
  destruct v as [| b | n | s | l | d]; try discriminate.
  - unfold validate_analysis_data. cbn [py_contains obind].
    destruct (is_substring (lit "selected_papers") s); cbn [negb obind py_getitem];
      discriminate.
  - unfold validate_analysis_data. cbn [py_contains obind].
    destruct (existsb (pyval_is_str (lit "selected_papers")) l);
      cbn [negb obind py_getitem]; discriminate.
  - rewrite validate_dict. discriminate.
Qed.

(** What the parser reads is the extracted part. *)
Lemma extracted_loads (w : World) (text part : str) :
  extracted text part ->
  loads_result_text w (PStr text) = json_loads_or_raise w part.
Proof.
  intros [(i & j & Hi & Hj & ->) | [Hn ->]].
  - rewrite loads_result_text_braces
      by (eapply first_in + eapply last_in; eauto).
    now rewrite (brace_slice text i j Hi Hj).
  - now apply loads_result_text_whole.
Qed.

Lemma extracted_total (text : str) : exists part, extracted text part.
Proof.
  destruct (braces_or_not text) as [[Ho Hc]|Hn].
  - destruct (in_has_first _ _ Ho) as [i Hi].
    destruct (in_has_last _ _ Hc) as [j Hj].
    eexists. left. exists i, j. repeat split; try eassumption; apply Hi || apply Hj.
  - exists text. right. split; [exact Hn | reflexivity].
Qed.

(** The errors of [json_loads]. *)
Lemma scan_constant_errors (m : nat) (s : str) (e : exn) :
  scan_constant m s = PErr e -> e = JSONDecodeError \/ e = ValueError.
Proof.
  unfold scan_constant.
  repeat match goal with
  | |- context [strip_prefix ?p s] => destruct (strip_prefix p s); [discriminate|]
  | |- context [match_number s] =>
      destruct (match_number s) as [[[integer tail] r0]|];
      [destruct tail; [destruct (int_refuses m integer)|]; try discriminate;
       intros [= <-]; now right|]
  end.
  intros [= <-]. now left.
Qed.

Lemma scan_errors (m fuel : nat) :
  (forall k s e, scan_once m fuel k s = PErr e ->
                 e = JSONDecodeError \/ e = ValueError \/ e = RecursionError) /\
  (forall k s p e, object_pairs m fuel k s p = PErr e ->
                   e = JSONDecodeError \/ e = ValueError \/ e = RecursionError) /\
  (forall k s l e, array_items m fuel k s l = PErr e ->
                   e = JSONDecodeError \/ e = ValueError \/ e = RecursionError).
Proof.
  induction fuel as [|f (IHs & IHo & IHa)].
  - repeat split; intros; discriminate.
  - split; [|split].
    + intros k s e. simpl. destruct s as [|c t]; [intros [= <-]; tauto|].
      destruct (c =? 34).
      { destruct (scanstring t []) as [key rest|e'|] eqn:Hk; try discriminate.
        intros [= <-]. apply scanstring_errors in Hk. tauto. }
      destruct (c =? 123).
      { destruct k as [|d]; [intros [= <-]; tauto|].
        destruct (skip_ws t) as [|c1 r1]; [intros [= <-]; tauto|].
        destruct (c1 =? 125); [discriminate|].
        destruct (c1 =? 34); [apply IHo | intros [= <-]; tauto]. }
      destruct (c =? 91).
      { destruct k as [|d]; [intros [= <-]; tauto|].
        destruct (skip_ws t) as [|c1 r1]; [intros [= <-]; tauto|].
        destruct (c1 =? 93); [discriminate | apply IHa]. }
      intros H. apply scan_constant_errors in H. tauto.
    + intros k s p e. simpl.
      destruct (scanstring s []) as [key rest|e'|] eqn:Hk; try discriminate.
      2:{ intros [= <-]. apply scanstring_errors in Hk. tauto. }
      destruct (skip_ws rest) as [|c rest1]; [intros [= <-]; tauto|].
      destruct (c =? 58); [|intros [= <-]; tauto].
      destruct (scan_once m f k (skip_ws rest1)) as [value rest2|e'|] eqn:Hv;
        try discriminate.
      2:{ intros [= <-]. now apply IHs in Hv. }
      destruct (skip_ws rest2) as [|c2 rest3]; [intros [= <-]; tauto|].
      destruct (c2 =? 125); [discriminate|].
      destruct (c2 =? 44); [|intros [= <-]; tauto].
      destruct (skip_ws rest3) as [|c3 rest4]; [intros [= <-]; tauto|].
      destruct (c3 =? 34); [apply IHo | intros [= <-]; tauto].
    + intros k s l e. simpl.
      destruct (scan_once m f k s) as [value rest|e'|] eqn:Hv; try discriminate.
      2:{ intros [= <-]. now apply IHs in Hv. }
      destruct (skip_ws rest) as [|c rest1]; [intros [= <-]; tauto|].
      destruct (c =? 93); [discriminate|].
      destruct (c =? 44); [apply IHa | intros [= <-]; tauto].
Qed.

Lemma json_loads_errors (k m : nat) (s : str) (e : exn) :
  json_loads k m s = Raises e ->
  e = JSONDecodeError \/ e = ValueError \/ e = RecursionError.
Proof.
  unfold json_loads.
  destruct (match s with c :: _ => c =? 65279 | [] => false end);
    [intros [= <-]; tauto|].
  unfold json_decode.
  destruct (scan_once m (json_fuel s) k (skip_ws s)) as [v rest|e'|] eqn:Hs.
  - destruct (skip_ws rest); [discriminate | intros [= <-]; tauto].
  - intros [= <-]. now apply (proj1 (scan_errors _ _)) in Hs.
  - intros [= <-]; tauto.
Qed.

(** Arrays nested one level deeper than the interpreter has room for. *)
Lemma skip_ws_brackets (n : nat) : skip_ws (repeat 91 (S n)) = repeat 91 (S n).
Proof. reflexivity. Qed.

Lemma deep_nesting (m : nat) :
  forall k fuel,
    (2 * k < fuel)%nat ->
    scan_once m fuel k (repeat 91 (S k)) = PErr RecursionError.
Proof.
  induction k as [|k IH]; intros fuel Hf.
  - destruct fuel as [|f]; [lia|]. reflexivity.
  - destruct fuel as [|[|f]]; try lia.
    change (repeat 91 (S (S k))) with (91 :: repeat 91 (S k)).
    cbn [scan_once N.eqb Pos.eqb]. rewrite skip_ws_brackets.
    change (repeat 91 (S k)) with (91 :: repeat 91 k) at 1.
    cbn [N.eqb Pos.eqb].
    change (91 :: repeat 91 k) with (repeat 91 (S k)).
    cbn [array_items]. rewrite IH by lia. reflexivity.
Qed.

Lemma json_loads_deep (k m : nat) :
  json_loads k m (repeat 91 (S k)) = Raises RecursionError.
Proof.
  unfold json_loads. change (repeat 91 (S k)) with (91 :: repeat 91 k) at 1.
  cbn [N.eqb Pos.eqb]. unfold json_decode. rewrite skip_ws_brackets.
  rewrite deep_nesting; [reflexivity|].
  unfold json_fuel. rewrite repeat_length. lia.
Qed.

(** An integer with one digit more than [int] accepts. *)
Lemma span_digits_ones (n : nat) : span_digits (repeat 49 n) = (repeat 49 n, []).
Proof. induction n as [|n IH]; [reflexivity|]. simpl. now rewrite IH. Qed.

Lemma filter_digits_ones (n : nat) :
  List.filter is_digit (repeat 49 n) = repeat 49 n.
Proof. induction n as [|n IH]; [reflexivity|]. simpl. now rewrite IH. Qed.

Lemma json_loads_long_integer (k m : nat) :
  (0 < m)%nat ->
  json_loads k m (repeat 49 (S m)) = Raises ValueError.
Proof.
  intros Hm. unfold json_loads.
  change (repeat 49 (S m)) with (49 :: repeat 49 m) at 1.
  cbn [N.eqb Pos.eqb]. unfold json_decode, json_fuel. rewrite repeat_length.
  replace (2 * S m + 2)%nat with (S (2 * m + 3)) by lia.
  change (skip_ws (repeat 49 (S m))) with (repeat 49 (S m)).
  assert (Hc : scan_constant m (repeat 49 (S m)) = PErr ValueError).
  { unfold scan_constant, match_number, match_integer.
    change (repeat 49 (S m)) with (49 :: repeat 49 m).
    cbn [strip_prefix lit list_ascii_of_string List.map N_of_ascii]. 
    cbn [N.eqb Pos.eqb is_digit N.leb N.compare Pos.compare Pos.compare_cont andb].
    rewrite span_digits_ones. cbn [match_frac match_exp app].
    unfold int_refuses.
    change (49 :: repeat 49 m) with (repeat 49 (S m)).
    rewrite filter_digits_ones, repeat_length.
    destruct (Nat.ltb_spec 0 m); [|lia].
    destruct (Nat.ltb_spec m (S m)); [|lia]. reflexivity. }
  change (repeat 49 (S m)) with (49 :: repeat 49 m) at 1.
  cbn [scan_once N.eqb Pos.eqb].
  change (49 :: repeat 49 m) with (repeat 49 (S m)).
  rewrite Hc. reflexivity.
Qed.

(** The Selector is the parser applied to the result text. *)
Lemma analysis_of_text (w : World) (papers : list CandidatePaper)
    (t : TopicHierarchy) :
  analysis_of w papers t
  = obind (result_text_of w papers t) (parse_result_text w).
Proof.
  unfold analysis_of, result_text_of.
  destruct (invoke_model w papers t) as [x|e]; [|reflexivity]. cbn [obind].
  destruct (json_loads_body w x) as [b|e]; [|reflexivity]. cbn [obind].
  destruct (py_getitem b (lit "content")) as [c|e]; [|reflexivity]. cbn [obind].
  destruct (py_getitem0 c) as [f|e]; reflexivity.
Qed.

(** ** The card *)

Lemma all_strs_map (l : list str) : all_strs (List.map PStr l) = Some l.
Proof. induction l as [|s l IH]; simpl; [reflexivity | now rewrite IH]. Qed.

Lemma py_join_strs (sep : str) (l : list str) :
  py_join sep (PList (List.map PStr l)) = Returns (str_join sep l).
Proof. unfold py_join. cbn [py_iter]. now rewrite all_strs_map. Qed.

Lemma str_join_comma (l : list str) : str_join (lit ", ") l = comma_joined l.
Proof.
  induction l as [|a [|b rest] IH]; [reflexivity | reflexivity |].
  change (str_join (lit ", ") (a :: b :: rest))
    with (a ++ lit ", " ++ str_join (lit ", ") (b :: rest)).
  rewrite IH. reflexivity.
Qed.

Lemma topic_display_typed (w : World) (t : option Topic) :
  topic_display w
    (or_default (PStr (lit "(N/A)")) (option_map topic_value t))
  = Returns (displayed_topic t).
Proof.
  destruct t as [[label | [|a l]]|]; unfold topic_display; cbn [or_default
    option_map topic_value isinstance_list py_truthy negb List.map py_format
    displayed_topic]; try reflexivity.
  change (PStr a :: List.map PStr l) with (List.map PStr (a :: l)).
  rewrite py_join_strs, str_join_comma. reflexivity.
Qed.

Lemma py_get_dict (d : list (str * pyval)) (k : str) (default : pyval) :
  py_get (PDict d) k default = Returns (or_default default (dict_get k d)).
Proof. reflexivity. Qed.

(** The elements appended for a paper that has the type of the
    specification. *)
Lemma paper_elements_typed (w : World) (i : nat) (paper : pyval)
    (sp : SelectedPaper) :
  represents paper sp ->
  paper_elements w i paper =
  Returns ((if (0 <? i)%nat then [rendered_separator] else [])
           ++ rendered_paper (str_of_nat (i + 1)) sp).
Proof.
  intros (d & -> & Hurl & Htitle & Htopic & Hsummary & Hkeywords).
  unfold paper_elements. rewrite !py_get_dict.
  rewrite Hurl, Htitle, Htopic, Hsummary, Hkeywords. cbn [obind].
  rewrite topic_display_typed. cbn [obind].
  assert (Hk : py_join (lit ", ")
                 (or_default (PList [])
                    (option_map (fun l => PList (List.map PStr l)) (sp_keywords sp)))
               = Returns (comma_joined (or_default [] (sp_keywords sp)))).
  { destruct (sp_keywords sp) as [l|]; cbn [option_map or_default].
    - rewrite py_join_strs, str_join_comma. reflexivity.
    - reflexivity. }
  rewrite Hk. cbn [obind].
  unfold rendered_paper, rendered_title, rendered_details, rendered_link,
    rendered_separator, title_block, title_text, markdown_block, markdown_text,
    topic_heading, keywords_heading, action_block, action_title,
    separator_block, TextBlock, Medium.
  destruct (sp_title sp), (sp_summary sp), (sp_url sp);
    cbn [option_map or_default py_format];
    rewrite <- ?app_assoc; reflexivity.
Qed.

Lemma card_body_loop_typed (w : World) (papers : list pyval) :
  forall (sps : list SelectedPaper) (i : nat) (acc : list pyval),
    Forall2 represents papers sps ->
    card_body_loop w i papers acc = Returns (acc ++ groups_from i sps).
Proof.
  induction papers as [|p papers IH]; intros sps i acc H; inversion H; subst.
  - simpl. now rewrite app_nil_r.
  - simpl. rewrite (paper_elements_typed w i p _ H2). cbn [obind].
    rewrite (IH _ (S i) _ H4). now rewrite <- !app_assoc.
Qed.

Lemma groups_from_S (i : nat) (sps : list SelectedPaper) :
  groups_from (S i) sps
  = flat_map (fun g => rendered_separator :: g)
      (zip_with rendered_paper (ranks_from (S i) (length sps)) sps).
Proof.
  revert i. induction sps as [|sp rest IH]; intros i; [reflexivity|].
  cbn [groups_from length ranks_from seq List.map zip_with flat_map].
  fold (ranks_from (S (S i)) (length rest)). rewrite IH. reflexivity.
Qed.

Lemma with_separators_cons (g : list pyval) (rest : list (list pyval)) :
  with_separators (g :: rest)
  = g ++ flat_map (fun h => rendered_separator :: h) rest.
Proof.
  revert g. induction rest as [|h rest IH]; intros g.
  - simpl. now rewrite app_nil_r.
  - change (with_separators (g :: h :: rest))
      with (g ++ rendered_separator :: with_separators (h :: rest)).
    rewrite IH. reflexivity.
Qed.

Lemma groups_from_0 (sps : list SelectedPaper) :
  groups_from 0 sps = rendered_card (ranks_from 0 (length sps)) sps.
Proof.
  unfold rendered_card. destruct sps as [|sp rest]; [reflexivity|].
  cbn [groups_from length ranks_from seq List.map zip_with].
  fold (ranks_from 1 (length rest)).
  rewrite with_separators_cons, groups_from_S. reflexivity.
Qed.

(** The ranks Python writes are the numbers 1, 2, ... *)
Lemma decimal_value_uint (d : Decimal.uint) :
  forall acc,
    decimal_value acc (lit (NilEmpty.string_of_uint d))
    = Some (Nat.of_uint_acc d acc).
Proof.
  induction d; intros acc; cbn [NilEmpty.string_of_uint Nat.of_uint_acc];
    [reflexivity| ..];
    unfold lit in *; cbn [list_ascii_of_string List.map];
    match goal with
    | |- context [N_of_ascii ?a] =>
        let v := eval vm_compute in (N_of_ascii a) in
        change (N_of_ascii a) with v
    end;
    cbn [decimal_value N.leb N.compare Pos.compare Pos.compare_cont andb];
    rewrite IHd; f_equal; f_equal; rewrite Nat.tail_mul_spec;
    cbn [N.sub N.to_nat Pos.sub]; simpl; lia.
Qed.

Lemma str_of_nat_writes (n : nat) : writes (str_of_nat n) n.
Proof.
  split.
  - unfold str_of_nat. destruct (Nat.to_uint n) eqn:E; try discriminate.
    pose proof (Unsigned.of_to n) as H. rewrite E in H. cbn in H. subst n.
    discriminate E.
  - unfold str_of_nat. rewrite decimal_value_uint.
    f_equal. apply Unsigned.of_to.
Qed.

Lemma ranks_from_writes (n i : nat) (rank : str) :
  ranks_from 0 n !! i = Some rank -> writes rank (i + 1).
Proof.
  unfold ranks_from. intros H.
  apply list_lookup_fmap_Some in H as (k & -> & Hk).
  apply lookup_seq in Hk as [-> _]. apply str_of_nat_writes.
Qed.

Lemma length_ranks_from (i n : nat) : length (ranks_from i n) = n.
Proof. unfold ranks_from. now rewrite length_map, length_seq. Qed.

(** ** Occurrences in the batch *)

Lemma map_flat_map_entries {A B C : Type} (f : B -> C) (g : A -> list B)
    (l : list A) :
  List.map f (flat_map g l) = flat_map (fun x => List.map f (g x)) l.
Proof.
  induction l as [|x l IH]; simpl; [reflexivity|].
  now rewrite List.map_app, IH.
Qed.

Lemma occurrences_batch_unbound (w : World) (tbl : gset str) (limit : Z)
    (u : str) (feed_urls : list str) :
  seen w tbl u = false ->
  (forall f, In f feed_urls ->
     (length (List.filter (is_new w tbl) (usable_entries w f))
      <= Z.to_nat limit)%nat) ->
  occurrences u (List.map entry_link (batch w tbl limit feed_urls)) =
  occurrences u
    (flat_map (fun f => List.map entry_link (usable_entries w f)) feed_urls).
Proof.
  intros Hu. induction feed_urls as [|f rest IH]; intros Hq; [reflexivity|].
  unfold batch in *. simpl. rewrite List.map_app, !occurrences_app.
  rewrite IH by (intros g Hg; apply Hq; now right).
  f_equal. unfold batch_of_feed.
  rewrite take_ge by (apply Hq; now left).
  now apply occurrences_new.
Qed.

Lemma occurrences_papers (u : str) (l : list Entry) :
  length (List.filter (fun p => str_eqb u (paper_url p))
            (List.map candidate_of_entry l)) =
  occurrences u (List.map entry_link l).
Proof.
  unfold occurrences. induction l as [|e l IH]; simpl; [reflexivity|].
  destruct (str_eqb u (entry_link e)); simpl; now rewrite IH.
Qed.

(** * The claims *)

Lemma validate_returns (v r : pyval) :
  validate_analysis_data v = Returns r ->
  r = empty_selection
  \/ exists d l, v = PDict d
                 /\ dict_get (lit "selected_papers") d = Some (PList l)
                 /\ r = PDict d.
Proof.
  destruct v as [| b | n | s | l | d]; try discriminate.
  - unfold validate_analysis_data. cbn [py_contains obind].
    destruct (is_substring (lit "selected_papers") s);
      cbn [negb obind py_getitem]; [discriminate|]. intros [= <-]. now left.
  - unfold validate_analysis_data. cbn [py_contains obind].
    destruct (existsb (pyval_is_str (lit "selected_papers")) l);
      cbn [negb obind py_getitem]; [discriminate|]. intros [= <-]. now left.
  - rewrite validate_dict.
    destruct (dict_get (lit "selected_papers") d) as [[| | | | l |]|] eqn:Hg;
      intros [= <-]; try (now left).
    right. exists d, l. split; [reflexivity|]. split; [exact Hg | reflexivity].
Qed.

(** C1 fails on the code: nothing bounds the selection.  Whatever list the
    model writes under [selected_papers] is returned by the Selector whole,
    whatever its length, and is what the handler passes on; the limit of
    three is only asked of the model in the prompt. *)
Theorem selection_is_the_parsed_list (w : World)
    (papers : list CandidatePaper) (t : TopicHierarchy) (st : State)
    (text part : str) (d : list (str * pyval)) (l : list pyval) :
  result_text_of w papers t = Returns (PStr text) ->
  extracted text part ->
  json_loads_or_raise w part = Returns (PDict d) ->
  dict_get (lit "selected_papers") d = Some (PList l) ->
  analyze_papers_with_bedrock w papers t st
  = (Returns (PDict d), log st [EvInvokeModel papers])
  /\ selected_of (analysis_of w papers t) = PList l.
Proof.
  intros Htext Hpart Hloads Hget.
  assert (Ha : analysis_of w papers t = Returns (PDict d)).
  { rewrite analysis_of_text, Htext. cbn [obind].
    rewrite (parse_result_text_loaded w (PStr text) (PDict d))
      by (rewrite (extracted_loads w text part Hpart); exact Hloads).
    rewrite validate_dict, Hget. reflexivity. }
  rewrite analyze_run, Ha. split; [reflexivity|].
  unfold selected_of. cbn [py_get]. now rewrite Hget.
Qed.

Lemma selection_is_the_parsed_list_witness :
  let w := example_world (Returns (Decoded four_papers_response))
             (Returns 200%Z) in
  let t := topic_hierarchy_of example_config in
  exists d l,
    analyze_papers_with_bedrock w [] t example_state
    = (Returns (PDict d), log example_state [EvInvokeModel []])
    /\ selected_of (analysis_of w [] t) = PList l
    /\ length l = 4%nat
    /\ (3 < length l)%nat.
Proof.
  intros w t.
  set (d := match loads_result_text w (PStr four_papers_text) with
            | Returns (PDict d) => d
            | _ => []
            end).
  set (l := match dict_get (lit "selected_papers") d with
            | Some (PList l) => l
            | _ => []
            end).
  assert (Htext : result_text_of w [] t = Returns (PStr four_papers_text))
    by (vm_compute; reflexivity).
  destruct (extracted_total four_papers_text) as [part Hpart].
  assert (Hloads : json_loads_or_raise w part = Returns (PDict d)).
  { rewrite <- (extracted_loads w _ _ Hpart). vm_compute. reflexivity. }
  assert (Hget : dict_get (lit "selected_papers") d = Some (PList l))
    by (vm_compute; reflexivity).
  assert (Hlen : length l = 4%nat) by (vm_compute; reflexivity).
  exists d, l.
  destruct (selection_is_the_parsed_list w [] t example_state
              four_papers_text part d l Htext Hpart Hloads Hget) as [Hrun Hsel].
  split; [exact Hrun|]. split; [exact Hsel|]. split; [exact Hlen|].
  rewrite Hlen. lia.
Defined.

(** C2: in every run in which the Collector returns a batch that is not
    empty, [mark_article_as_processed] is called for every identifier of the
    mark-list before the handler returns, whatever Bedrock and Teams do, and
    the handler returns status code 200; when the Bedrock call raises, the
    Notifier is not invoked. *)
Theorem marking_always_reached (cfg : Config) (w : World) (st st1 : State)
    (papers : list CandidatePaper) (urls : list str) :
  config_ready cfg ->
  collect_unprocessed_papers w (feed_urls_list_of cfg)
    (limit_per_feed_of (max_to_process_of cfg) (feed_urls_list_of cfg)) st
  = (Returns (papers, urls), st1) ->
  papers <> [] ->
  exists response st2 middle,
    lambda_handler cfg w st = (Returns response, st2)
    /\ statusCode response = 200%Z
    /\ trace st2 = trace st1 ++ middle ++ List.map EvPutItem urls
    /\ (forall u, In u urls -> put_item_error w u = None -> u ∈ table st2)
    /\ (forall e st',
          analyze_papers_with_bedrock w papers (topic_hierarchy_of cfg) st1
          = (Raises e, st') ->
          middle = [EvInvokeModel papers]
          /\ (forall sel, ~ In (EvNotify sel) (middle ++ List.map EvPutItem urls))
          /\ (forall webhook payload,
                ~ In (EvPost webhook payload) (middle ++ List.map EvPutItem urls))).
Proof.
  intros Hcfg Hcollect Hne.
  pose proof (lambda_handler_run cfg w st st1 papers urls Hcfg Hcollect Hne) as Hrun.
  set (notified := notify_events cfg w
         (selected_of (analysis_of w papers (topic_hierarchy_of cfg)))) in *.
  eexists _, _, ([EvInvokeModel papers] ++ notified).
  split; [exact Hrun|].
  split; [reflexivity|]. cbn [table trace].
  split; [now rewrite <- !app_assoc|].
  split.
  - intros u Hu Hp. apply elem_of_marked_all. right. tauto.
  - intros e st' Hraise. rewrite analyze_run in Hraise.
    injection Hraise as Ha _. subst notified. rewrite Ha. simpl.
    split; [reflexivity|].
    split; intros; (intros [Hin | Hin]; [discriminate|]);
      apply in_map_iff in Hin as [x [Hx _]]; discriminate.
Qed.

Lemma In_existsb_str (u : str) (l : list str) :
  existsb (str_eqb u) l = true -> In u l.
Proof.
  intros H. apply existsb_exists in H as [x [Hx Heq]].
  apply str_eqb_eq in Heq. now subst.
Qed.

Lemma marking_always_reached_witness :
  let w := example_world (Raises ClientError) (Returns 200%Z) in
  exists response st2,
    lambda_handler example_config w example_state = (Returns response, st2)
    /\ statusCode response = 200%Z
    /\ entry_link (example_entry "b10") ∈ table st2
    /\ (forall sel, ~ In (EvNotify sel) (trace st2)).
Proof.
  intros w.
  destruct (collect_run w (feed_urls_list_of example_config)
              (limit_per_feed_of (max_to_process_of example_config)
                 (feed_urls_list_of example_config)) example_state)
    as [evs [Hc Hevs]].
  assert (Hready : config_ready example_config).
  { split; [reflexivity|]. split; [vm_compute; discriminate | reflexivity]. }
  assert (Hne : List.map candidate_of_entry
                  (batch w (table example_state)
                     (limit_per_feed_of (max_to_process_of example_config)
                        (feed_urls_list_of example_config))
                     (feed_urls_list_of example_config)) <> []).
  { vm_compute. discriminate. }
  destruct (marking_always_reached example_config w example_state _ _ _
              Hready Hc Hne)
    as (response & st2 & middle & Hrun & Hstatus & Htrace & Hmarked & Hraise).
  exists response, st2.
  split; [exact Hrun|]. split; [exact Hstatus|]. split.
  - apply Hmarked; [|reflexivity].
    apply In_existsb_str. vm_compute. reflexivity.
  - destruct (Hraise ClientError _ (analyze_run w _ _ _)) as (_ & Hnot & _).
    intros sel Hin. rewrite Htrace in Hin. apply in_app_iff in Hin as [Hin|Hin].
    + unfold log in Hin. cbn [trace] in Hin.
      apply in_app_iff in Hin as [Hin|Hin]; [exact Hin|].
      assert (Hb := proj1 (forallb_forall _ _) Hevs _ Hin). discriminate.
    + exact (Hnot sel Hin).
Defined.

(** C3: for an overall cap M and a list of N >= 1 feed sources the per-feed
    quota is max(1, M // N), and the Collector returns, with at most
    N * quota candidates. *)
Theorem quota_and_total (max_to_process : Z) (feed_urls : list str)
    (w : World) (st : State) :
  feed_urls <> [] ->
  let quota := limit_per_feed_of max_to_process feed_urls in
  quota = Z.max 1 (max_to_process / Z.of_nat (length feed_urls))
  /\ exists papers urls st',
       collect_unprocessed_papers w feed_urls quota st
       = (Returns (papers, urls), st')
       /\ (Z.of_nat (length papers) <= Z.of_nat (length feed_urls) * quota)%Z.
Proof.
  intros Hne quota. split.
  - unfold quota, limit_per_feed_of. apply py_max_max.
  - destruct (collect_run w feed_urls quota st) as [evs [H _]].
    eexists _, _, _. split; [exact H|].
    rewrite length_map.
    pose proof (length_batch w (table st) quota feed_urls) as Hl.
    assert (Hq : (1 <= quota)%Z).
    { unfold quota, limit_per_feed_of. rewrite py_max_max. lia. }
    nia.
Qed.

Lemma quota_and_total_witness :
  [lit "A"; lit "B"] <> [] /\
  limit_per_feed_of 20 [lit "A"; lit "B"] = 10%Z /\
  exists papers urls st',
    collect_unprocessed_papers
      (example_world (Raises ClientError) (Returns 200%Z))
      [lit "A"; lit "B"] 10 example_state
    = (Returns (papers, urls), st')
    /\ (Z.of_nat (length papers) <= 2 * 10)%Z.
Proof.
  split; [discriminate|].
  split; [reflexivity|].
  apply (quota_and_total 20 [lit "A"; lit "B"]
           (example_world (Raises ClientError) (Returns 200%Z)) example_state).
  discriminate.
Defined.

(** C4: within each feed the Collector goes through the entries in feed
    order, skips the entries the store reports as processed without counting
    them, counts the new ones against the quota and stops at the quota: the
    candidates of a feed are its first [limit] new entries, and the entries
    it looks up are those up to the one that fills the quota, no entry
    after it.  The i-th
    identifier of the mark-list is the identifier of the i-th candidate.
    With two sources and cap 20 (quota 10 each), source A having 3 new and
    2 processed entries and source B 12 new entries, 13 candidates are
    returned, the mark-list holds their 13 identifiers, and the processed
    identifiers are in neither. *)
Theorem collector_order_and_quota (w : World) (st : State) :
  (* one feed: lookups in feed order, up to where the quota is reached and
     not beyond; the first new entries up to the quota are added *)
  (forall (entries : list Entry) (limit : Z)
          (papers : list CandidatePaper) (urls : list str),
     exists n,
       stops_at w (table st) limit entries n
       /\ collect_entries w entries limit 0 papers urls st =
          (Returns
             (papers ++ List.map candidate_of_entry
                          (take (Z.to_nat limit)
                             (List.filter (is_new w (table st)) entries)),
              urls ++ List.map entry_link
                        (take (Z.to_nat limit)
                           (List.filter (is_new w (table st)) entries))),
           log st (List.map EvGetItem (take n (List.map entry_link entries)))))
  (* all feeds, in the given order; the table is only read, and the calls
     are, feed after feed, the fetch and the lookups up to the quota *)
  /\ (forall (feed_urls : list str) (limit : Z),
        exists st' calls,
          collect_unprocessed_papers w feed_urls limit st =
          (Returns
             (List.map candidate_of_entry (batch w (table st) limit feed_urls),
              List.map entry_link (batch w (table st) limit feed_urls)),
           st')
          /\ table st' = table st
          /\ Forall2 (feed_calls w (table st) limit) feed_urls calls
          /\ trace st' = trace st ++ concat calls)
  (* the mark-list is aligned with the candidates *)
  /\ (forall feed_urls limit papers urls st',
        collect_unprocessed_papers w feed_urls limit st
        = (Returns (papers, urls), st') ->
        length urls = length papers
        /\ forall i, urls !! i = paper_url <$> papers !! i)
  (* the scenario *)
  /\ (forall (url_A url_B : str) (entries_A entries_B : list Entry),
        feedparser_parse w url_A = Feed false entries_A ->
        feedparser_parse w url_B = Feed false entries_B ->
        length (List.filter (is_new w (table st)) entries_A) = 3%nat ->
        length (List.filter
                  (fun e => seen w (table st) (entry_link e)) entries_A) = 2%nat ->
        length entries_B = 12%nat ->
        forallb (is_new w (table st)) entries_B = true ->
        limit_per_feed_of 20 [url_A; url_B] = 10%Z
        /\ exists papers urls st',
             collect_unprocessed_papers w [url_A; url_B]
               (limit_per_feed_of 20 [url_A; url_B]) st
             = (Returns (papers, urls), st')
             /\ length papers = 13%nat
             /\ urls = List.map paper_url papers
             /\ length urls = 13%nat
             /\ forall e, In e entries_A ->
                          seen w (table st) (entry_link e) = true ->
                          ~ In (entry_link e) urls
                          /\ ~ In (entry_link e) (List.map paper_url papers)).
Proof.
  split; [|split; [|split]].
  - intros entries limit papers urls.
    destruct (collect_entries_stops w limit entries 0 papers urls st)
      as (n & Hle & Hbefore & Hat & Hn).
    exists n. split.
    + split; [exact Hle|]. split.
      * intros m Hm. specialize (Hbefore m Hm). lia.
      * intros Hlen. specialize (Hat Hlen). lia.
    + rewrite Hn. rewrite Z.sub_0_r. reflexivity.
  - intros feed_urls limit.
    destruct (collect_run w feed_urls limit st) as [evs [H _]].
    destruct (collect_feeds_calls w limit feed_urls [] [] st)
      as (calls & Hcalls & Hs).
    unfold collect_unprocessed_papers in H. rewrite H in Hs. cbn [snd] in Hs.
    exists (log st evs), calls. split; [exact H|].
    split; [reflexivity|]. split; [exact Hcalls|].
    rewrite Hs. reflexivity.
  - intros feed_urls limit papers urls st' H.
    apply collect_urls in H as (-> & -> & _).
    rewrite !length_map. split; [reflexivity|].
    intros i. rewrite !list_lookup_fmap.
    destruct (batch w (table st) limit feed_urls !! i); reflexivity.
  - intros url_A url_B entries_A entries_B HA HB H3 H2 H12 Hnew.
    assert (Hq : limit_per_feed_of 20 [url_A; url_B] = 10%Z) by reflexivity.
    split; [exact Hq|]. rewrite Hq.
    destruct (collect_run w [url_A; url_B] 10 st) as [evs [H _]].
    eexists _, _, _. split; [exact H|].
    assert (Hb : batch w (table st) 10 [url_A; url_B] =
                 List.filter (is_new w (table st)) entries_A
                 ++ take 10 entries_B).
    { unfold batch, batch_of_feed, usable_entries. simpl.
      rewrite HA, HB, app_nil_r.
      rewrite (filter_all _ entries_B Hnew).
      rewrite take_ge by (rewrite H3; change (Z.to_nat 10) with 10%nat; lia).
      reflexivity. }
    assert (Hlen : length (batch w (table st) 10 [url_A; url_B]) = 13%nat).
    { rewrite Hb, length_app, H3, length_take, H12. reflexivity. }
    split; [now rewrite length_map|].
    split; [now rewrite map_url_candidates|].
    split; [now rewrite length_map|].
    intros e He Hs.
    assert (Hnot : ~ In (entry_link e)
                     (List.map entry_link (batch w (table st) 10 [url_A; url_B]))).
    { intros Hin. apply in_map_iff in Hin as [e' [Heq Hin]].
      apply batch_new in Hin. unfold is_new in Hin.
      rewrite Heq, Hs in Hin. discriminate. }
    split; [exact Hnot | now rewrite map_url_candidates].
Qed.

Lemma collector_order_and_quota_witness :
  let w := example_world (Raises ClientError) (Returns 200%Z) in
  exists papers urls st',
    collect_unprocessed_papers w [lit "A"; lit "B"]
      (limit_per_feed_of 20 [lit "A"; lit "B"]) example_state
    = (Returns (papers, urls), st')
    /\ length papers = 13%nat
    /\ urls = List.map paper_url papers
    /\ length urls = 13%nat
    /\ forall e, In e example_entries_A ->
                 seen w (table example_state) (entry_link e) = true ->
                 ~ In (entry_link e) urls
                 /\ ~ In (entry_link e) (List.map paper_url papers).
Proof.
  intros w.
  refine (proj2 (proj2 (proj2 (proj2 (collector_order_and_quota w example_state)))
            (lit "A") (lit "B") example_entries_A example_entries_B
            _ _ _ _ _ _)); vm_compute; reflexivity.
Defined.

(** C5 fails on the code.  What holds for every response text: the parser
    reads the part from the first opening brace to the last closing brace,
    or the whole text when one of the braces is missing; a
    [JSONDecodeError] gives the empty selection; a parsed object gives
    itself when it has a [selected_papers] list and the empty selection
    otherwise.  What fails: a value that is no object ([null], a number, a
    boolean) makes the membership test raise [TypeError], and the two other
    errors of [json.loads] are not caught; the Selector then raises.  The
    last three lines give such texts for every interpreter. *)
Theorem response_parsing_outcomes (w : World) :
  (forall text,
     exists part,
       extracted text part
       /\ loads_result_text w (PStr text) = json_loads_or_raise w part
       /\ (json_loads_or_raise w part = Raises JSONDecodeError ->
           parse_result_text w (PStr text) = Returns empty_selection)
       /\ (forall d l,
             json_loads_or_raise w part = Returns (PDict d) ->
             dict_get (lit "selected_papers") d = Some (PList l) ->
             parse_result_text w (PStr text) = Returns (PDict d))
       /\ (forall d,
             json_loads_or_raise w part = Returns (PDict d) ->
             (forall l, dict_get (lit "selected_papers") d <> Some (PList l)) ->
             parse_result_text w (PStr text) = Returns empty_selection)
       /\ (forall v,
             json_loads_or_raise w part = Returns v ->
             is_scalar v = true ->
             parse_result_text w (PStr text) = Raises TypeError)
       /\ (forall e,
             json_loads_or_raise w part = Raises e ->
             e <> JSONDecodeError ->
             (e = ValueError \/ e = RecursionError)
             /\ parse_result_text w (PStr text) = Raises e))
  /\ parse_result_text w (PStr (lit "null")) = Raises TypeError
  /\ ((0 < int_max_str_digits w)%nat ->
      parse_result_text w (PStr (repeat 49 (S (int_max_str_digits w))))
      = Raises ValueError)
  /\ parse_result_text w (PStr (repeat 91 (S (json_max_depth w))))
     = Raises RecursionError.
Proof.
  assert (Hraise : forall text e,
            loads_result_text w (PStr text) = Raises e ->
            parse_result_text w (PStr text)
            = if is_JSONDecodeError e then Returns empty_selection else Raises e).
  { intros text e He. unfold parse_result_text. rewrite He. reflexivity. }
  assert (Hwhole : forall c n,
            c <> 123 -> c <> 125 ->
            loads_result_text w (PStr (repeat c n))
            = json_loads_or_raise w (repeat c n)).
  { intros c n H1 H2. apply loads_result_text_whole. left.
    intros Hin. apply repeat_spec in Hin. congruence. }
  split; [|split; [|split]].
  - intros text. destruct (extracted_total text) as [part Hpart].
    pose proof (extracted_loads w text part Hpart) as Hl.
    exists part. split; [exact Hpart|]. split; [exact Hl|].
    split; [|split; [|split; [|split]]].
    + intros He. rewrite <- Hl in He. now rewrite (Hraise _ _ He).
    + intros d l Hv Hg. rewrite <- Hl in Hv.
      rewrite (parse_result_text_loaded _ _ _ Hv), validate_dict, Hg.
      reflexivity.
    + intros d Hv Hno. rewrite <- Hl in Hv.
      rewrite (parse_result_text_loaded _ _ _ Hv), validate_dict.
      destruct (dict_get (lit "selected_papers") d) as [[| | | | l |]|] eqn:Hg;
        try reflexivity.
      exfalso. exact (Hno l eq_refl).
    + intros v Hv Hs. rewrite <- Hl in Hv.
      rewrite (parse_result_text_loaded _ _ _ Hv).
      destruct v; try discriminate; reflexivity.
    + intros e He Hne. split.
      * apply json_loads_errors in He. tauto.
      * rewrite <- Hl in He. rewrite (Hraise _ _ He).
        destruct e; try reflexivity. congruence.
  - reflexivity.
  - intros Hm.
    rewrite (Hraise _ ValueError); [reflexivity|].
    rewrite Hwhole by discriminate.
    now apply json_loads_long_integer.
  - rewrite (Hraise _ RecursionError); [reflexivity|].
    rewrite Hwhole by discriminate.
    apply json_loads_deep.
Qed.

(** C6: [is_article_processed] returns False whenever the lookup raises, and
    True exactly when the lookup succeeds and finds the identifier;
    [mark_article_as_processed] never raises, so that every identifier of
    the run is attempted and every one whose write succeeds is marked,
    whatever happens to the others. *)
Theorem store_adapter_failures (w : World) (st : State) :
  (forall url e,
     get_item_error w url = Some e ->
     fst (is_article_processed w url st) = Returns false)
  /\ (forall url,
        fst (is_article_processed w url st) = Returns true
        <-> get_item_error w url = None /\ url ∈ table st)
  /\ (forall url, exists b st',
        is_article_processed w url st = (Returns b, st')
        /\ table st' = table st)
  /\ (forall url, exists st',
        mark_article_as_processed w url st = (Returns tt, st')
        /\ trace st' = trace st ++ [EvPutItem url]
        /\ (put_item_error w url = None -> url ∈ table st'))
  /\ (forall urls, exists st',
        mark_all w urls st = (Returns tt, st')
        /\ trace st' = trace st ++ List.map EvPutItem urls
        /\ (forall u, In u urls -> put_item_error w u = None -> u ∈ table st')
        /\ (forall u, u ∈ table st -> u ∈ table st')).
Proof.
  split; [|split; [|split; [|split]]].
  - intros url e He. rewrite is_article_processed_run. simpl.
    unfold seen. now rewrite He.
  - intros url. rewrite is_article_processed_run. simpl. unfold seen.
    destruct (get_item_error w url) as [e|].
    + split; [discriminate | intros [? _]; discriminate].
    + split.
      * intros [= H]. apply bool_decide_eq_true in H. tauto.
      * intros [_ H]. f_equal. now apply bool_decide_eq_true.
  - intros url. rewrite is_article_processed_run. eexists _, _.
    split; reflexivity.
  - intros url. rewrite mark_article_as_processed_run. eexists.
    split; [reflexivity|]. split; [reflexivity|].
    intros Hp. simpl. unfold marked. rewrite Hp. set_solver.
  - intros urls. rewrite mark_all_run. eexists. split; [reflexivity|].
    split; [reflexivity|]. simpl. split.
    + intros u Hu Hp. apply elem_of_marked_all. right. tauto.
    + intros u Hu. apply elem_of_marked_all. now left.
Qed.

(** C7: [post_summary_to_teams] returns True only when the endpoint answers
    with status 200; a delivery error (no webhook configured, an exception
    of the request, a status other than 200) makes it return False without
    raising; and after such a failure the handler still marks every
    candidate of the batch and returns status code 200. *)
Theorem delivery_failure_is_not_fatal (cfg : Config) (w : World) (sel : pyval) :
  (forall st,
     fst (post_summary_to_teams cfg w sel st) = Returns true ->
     exists webhook card_body,
       card_of w sel = Returns card_body
       /\ TEAMS_WEBHOOK_URL cfg = Some webhook
       /\ requests_post w webhook (card_payload card_body) = Returns 200%Z)
  /\ (forall st card_body,
        card_of w sel = Returns card_body ->
        delivery_fails cfg w (card_payload card_body) ->
        exists st',
          post_summary_to_teams cfg w sel st = (Returns false, st')
          /\ table st' = table st)
  /\ (forall st st1 st2 papers urls analysis_result card_body,
        config_ready cfg ->
        collect_unprocessed_papers w (feed_urls_list_of cfg)
          (limit_per_feed_of (max_to_process_of cfg) (feed_urls_list_of cfg)) st
        = (Returns (papers, urls), st1) ->
        papers <> [] ->
        analyze_papers_with_bedrock w papers (topic_hierarchy_of cfg) st1
        = (Returns analysis_result, st2) ->
        py_get analysis_result (lit "selected_papers") (PList []) = Returns sel ->
        py_truthy sel = true ->
        card_of w sel = Returns card_body ->
        delivery_fails cfg w (card_payload card_body) ->
        exists st3 response st4,
          post_summary_to_teams cfg w sel st2 = (Returns false, st3)
          /\ lambda_handler cfg w st = (Returns response, st4)
          /\ statusCode response = 200%Z
          /\ trace st4 = trace st3 ++ List.map EvPutItem urls
          /\ (forall u, In u urls -> put_item_error w u = None ->
                        u ∈ table st4)).
Proof.
  assert (Hfail : forall card_body,
            card_of w sel = Returns card_body ->
            delivery_fails cfg w (card_payload card_body) ->
            post_result cfg w sel = Returns false).
  { intros card_body Hcard Hd. unfold post_result, delivery_fails in *.
    rewrite Hcard. destruct (webhook_of cfg) as [webhook|]; [|reflexivity].
    unfold delivery_result.
    destruct (requests_post w webhook (card_payload card_body)) as [sc|e].
    - destruct ((400 <=? sc)%Z && (sc <? 600)%Z); [reflexivity|].
      f_equal. now apply Z.eqb_neq.
    - now rewrite Hd. }
  split; [|split].
  - intros st. rewrite post_run. cbn [fst]. unfold post_result.
    destruct (card_of w sel) as [card_body|e]; [|discriminate].
    unfold webhook_of.
    destruct (TEAMS_WEBHOOK_URL cfg) as [[|c url]|]; try discriminate.
    unfold delivery_result.
    destruct (requests_post w (c :: url) (card_payload card_body))
      as [sc|e] eqn:Hpost.
    + destruct ((400 <=? sc)%Z && (sc <? 600)%Z); [discriminate|].
      intros [= Hsc]. apply Z.eqb_eq in Hsc. subst sc.
      exists (c :: url), card_body. repeat split. exact Hpost.
    + destruct (is_RequestException e); discriminate.
  - intros st card_body Hcard Hd. rewrite post_run, (Hfail _ Hcard Hd).
    eexists. split; reflexivity.
  - intros st st1 st2 papers urls analysis_result card_body
      Hcfg Hcollect Hne Hanalyze Hget Htruthy Hcard Hd.
    rewrite analyze_run in Hanalyze. injection Hanalyze as Ha <-.
    rewrite post_run, (Hfail _ Hcard Hd).
    eexists _, _, _. split; [reflexivity|].
    split; [exact (lambda_handler_run cfg w st st1 papers urls Hcfg Hcollect Hne)|].
    split; [reflexivity|]. cbn [table trace].
    rewrite Ha. cbn [selected_of]. rewrite Hget.
    unfold notify_events. rewrite Htruthy.
    split.
    + unfold log. cbn [trace]. now rewrite <- !app_assoc.
    + intros u Hu Hp. apply elem_of_marked_all. right. tauto.
Qed.

(** C8: for a list of SelectedPaper the body of the card holds, per paper
    and in order, the title line with the rank i + 1, the Markdown block
    with the topic(s) (joined by a comma and a space for a list that is not
    empty, as it is for a string, "(N/A)" for an empty list or no topic),
    the keywords joined the same way (none when absent) and the summary
    ("(No Summary)" when absent), and the action that opens the URL of the
    paper; a separator stands between two consecutive papers and not before
    the first; and this body is the body of the card in the message posted
    to the webhook. *)
Theorem card_rendering (cfg : Config) (w : World) (papers : list pyval)
    (sps : list SelectedPaper) (st : State) :
  Forall2 represents papers sps ->
  exists ranks,
    length ranks = length sps
    /\ (forall i rank, ranks !! i = Some rank -> writes rank (i + 1))
    /\ card_body_loop w 0 papers [] = Returns (rendered_card ranks sps)
    /\ (forall webhook,
          webhook_of cfg = Some webhook ->
          exists payload,
            trace (snd (post_summary_to_teams cfg w (PList papers) st))
            = trace st ++ [EvNotify (PList papers); EvPost webhook payload]
            /\ body_of_payload payload = Some (rendered_card ranks sps))
    /\ displayed_topic (Some (ManyTopics [lit "A"; lit "B"])) = lit "A, B"
    /\ displayed_topic (Some (OneTopic (lit "A"))) = lit "A"
    /\ displayed_topic (Some (ManyTopics [])) = lit "(N/A)"
    /\ displayed_topic None = lit "(N/A)".
Proof.
  intros H. exists (ranks_from 0 (length sps)).
  assert (Hcard : card_body_loop w 0 papers []
                  = Returns (rendered_card (ranks_from 0 (length sps)) sps)).
  { rewrite (card_body_loop_typed w papers sps 0 [] H). simpl.
    now rewrite groups_from_0. }
  split; [apply length_ranks_from|].
  split; [apply ranks_from_writes|].
  split; [exact Hcard|]. split; [|repeat split].
  intros webhook Hw. rewrite post_run. cbn [snd]. unfold log. cbn [trace].
  unfold post_events, card_of. cbn [py_iter obind]. rewrite Hcard, Hw.
  eexists. split; reflexivity.
Qed.

Lemma card_rendering_witness :
  Forall2 represents example_selected example_selected_typed
  /\ exists ranks,
       (forall i rank, ranks !! i = Some rank -> writes rank (i + 1))
       /\ card_body_loop (example_world (Raises ClientError) (Returns 200%Z)) 0
            example_selected []
          = Returns (rendered_card ranks example_selected_typed)
       /\ length (rendered_card ranks example_selected_typed) = 7%nat.
Proof.
  assert (H : Forall2 represents example_selected example_selected_typed).
  { repeat constructor; eexists; repeat split. }
  split; [exact H|].
  destruct (card_rendering example_config
              (example_world (Raises ClientError) (Returns 200%Z))
              example_selected example_selected_typed example_state H)
    as (ranks & Hlen & Hranks & Hcard & _).
  exists ranks. split; [exact Hranks|]. split; [exact Hcard|].
  destruct ranks as [|a [|b [|c r]]]; try discriminate Hlen. reflexivity.
Defined.

(** C9: the abstract stored for a feed entry is the entry's summary unchanged
    when the summary has at most 1500 characters; otherwise it is the first
    1500 characters of the summary followed by the truncation marker
    "... (truncated)". *)
Theorem abstract_truncation (entry : Entry) :
  ABSTRACT_TRUNCATE_LENGTH = 1500%Z /\
  paper_abstract (candidate_of_entry entry) =
  if (length (entry_summary entry) <=? 1500)%nat
  then entry_summary entry
  else take 1500 (entry_summary entry) ++ lit "... (truncated)".
Proof.
  split; [reflexivity|].
  unfold candidate_of_entry, truncate_abstract, py_slice, slice_bound,
    ABSTRACT_TRUNCATE_LENGTH.
  simpl paper_abstract. set (s := entry_summary entry).
  change (0 <? 0)%Z with false. change (1500 <? 0)%Z with false. cbv iota.
  rewrite (Z.min_l 0) by lia. change (Z.to_nat 0) with 0%nat. rewrite drop_0.
  rewrite Z.sub_0_r.
  destruct (Nat.leb_spec (length s) 1500) as [Hle|Hgt].
  - destruct (Z.gtb_spec (Z.of_nat (length s)) 1500); [lia|].
    rewrite Z.min_r by lia. rewrite Nat2Z.id. now apply take_ge.
  - destruct (Z.gtb_spec (Z.of_nat (length s)) 1500); [|lia].
    rewrite Z.min_l by lia. reflexivity.
Qed.

(** C10: candidates are deduplicated against the store only, not against
    each other.  An identifier that the store does not report as processed
    is collected once per occurrence in the quota windows of the feeds, as a
    candidate and in the mark-list; when no feed has more new entries than
    the quota, that is once per occurrence in the feeds. *)
Theorem duplicates_are_kept (w : World) (st : State) (feed_urls : list str)
    (limit : Z) (u : str) :
  seen w (table st) u = false ->
  exists papers urls st',
    collect_unprocessed_papers w feed_urls limit st = (Returns (papers, urls), st')
    /\ occurrences u urls
       = occurrences u
           (flat_map
              (fun f => List.map entry_link
                          (take (Z.to_nat limit)
                             (List.filter (is_new w (table st))
                                (usable_entries w f))))
              feed_urls)
    /\ length (List.filter (fun p => str_eqb u (paper_url p)) papers)
       = occurrences u urls
    /\ ((forall f, In f feed_urls ->
           (length (List.filter (is_new w (table st)) (usable_entries w f))
            <= Z.to_nat limit)%nat) ->
        occurrences u urls
        = occurrences u
            (flat_map (fun f => List.map entry_link (usable_entries w f))
               feed_urls)).
Proof.
  intros Hu.
  destruct (collect_run w feed_urls limit st) as [evs [H _]].
  eexists _, _, _. split; [exact H|].
  split; [|split].
  - f_equal. unfold batch, batch_of_feed. apply map_flat_map_entries.
  - apply occurrences_papers.
  - intros Hq. now apply occurrences_batch_unbound.
Qed.

Lemma duplicates_are_kept_witness :
  let u := entry_link (example_entry "x1") in
  seen twin_world (table example_state) u = false /\
  exists papers urls st',
    collect_unprocessed_papers twin_world [lit "A"; lit "B"] 10 example_state
    = (Returns (papers, urls), st')
    /\ occurrences u urls = 3%nat
    /\ length (List.filter (fun p => str_eqb u (paper_url p)) papers) = 3%nat.
Proof.
  intros u. split; [vm_compute; reflexivity|].
  destruct (duplicates_are_kept twin_world example_state [lit "A"; lit "B"] 10 u)
    as (papers & urls & st' & H & Hocc & Hpapers & _); [vm_compute; reflexivity|].
  exists papers, urls, st'. split; [exact H|].
  split; [rewrite Hocc | rewrite Hpapers, Hocc]; vm_compute; reflexivity.
Defined.

(** * Further properties of the code *)

(** ** The handler as a whole *)





Lemma filter_put_marks (urls : list str) :
  List.filter is_put_event (List.map EvPutItem urls) = List.map EvPutItem urls.
Proof. induction urls as [|u l IH]; simpl; [reflexivity | now rewrite IH]. Qed.


(** What the handler does in every case. *)
Lemma lambda_handler_cases (cfg : Config) (w : World) (st : State) :
  (* the run stops before the collection: nothing is called *)
  ((aws_clients cfg = false
    \/ feed_urls_list_of cfg = []
    \/ any_topics (topic_hierarchy_of cfg) = false)
   /\ exists response,
        lambda_handler cfg w st = (Returns response, st)
        /\ statusCode response = if aws_clients cfg then 200%Z else 500%Z)
  \/
  (* the collection runs *)
  (config_ready cfg
   /\ exists papers urls evs,
        collect_unprocessed_papers w (feed_urls_list_of cfg)
          (limit_per_feed_of (max_to_process_of cfg) (feed_urls_list_of cfg)) st
        = (Returns (papers, urls), log st evs)
        /\ forallb is_collect_event evs = true
        /\ papers = List.map candidate_of_entry
                      (batch w (table st)
                         (limit_per_feed_of (max_to_process_of cfg)
                            (feed_urls_list_of cfg))
                         (feed_urls_list_of cfg))
        /\ urls = List.map paper_url papers
        /\ ((papers = []
             /\ lambda_handler cfg w st
                = (Returns {| statusCode := 200;
                              body := lit "No new articles to analyze" |},
                   log st evs))
            \/ (papers <> []
                /\ lambda_handler cfg w st
                   = (Returns (success_response papers),
                      {| table := marked_all w urls (table st);
                         trace := trace st ++ evs
                                  ++ [EvInvokeModel papers]
                                  ++ notify_events cfg w
                                       (selected_of
                                          (analysis_of w papers
                                             (topic_hierarchy_of cfg)))
                                  ++ List.map EvPutItem urls |})))).
Proof.
  destruct (aws_clients cfg) eqn:Haws.
  2:{ left. split; [now left|]. unfold lambda_handler. rewrite Haws.
      eexists. split; reflexivity. }
  assert (Hfd : feed_urls_list_of cfg = [] \/ feed_urls_list_of cfg <> [])
    by (destruct (feed_urls_list_of cfg); [now left | right; discriminate]).
  destruct Hfd as [Hf | Hf].
  { left. split; [right; now left|]. unfold lambda_handler.
    rewrite Haws, Hf. eexists. split; reflexivity. }
  destruct (any_topics (topic_hierarchy_of cfg)) eqn:Ht.
  2:{ left. split; [right; now right|]. unfold lambda_handler.
      rewrite Haws, Ht. cbn [negb]. cbv zeta.
      destruct (feed_urls_list_of cfg); [congruence|].
      eexists. split; reflexivity. }
  right.
  assert (Hready : config_ready cfg) by (repeat split; assumption).
  split; [exact Hready|].
  destruct (collect_run w (feed_urls_list_of cfg)
              (limit_per_feed_of (max_to_process_of cfg) (feed_urls_list_of cfg))
              st) as [evs [Hc Hevs]].
  eexists _, _, evs. split; [exact Hc|]. split; [exact Hevs|].
  split; [reflexivity|]. split; [now rewrite map_url_candidates|].
  set (papers := List.map candidate_of_entry _) in *.
  set (urls := List.map entry_link _) in *.
  destruct papers as [|p ps] eqn:Hp.
  - left. split; [reflexivity|].
    unfold lambda_handler. rewrite Haws. cbn [negb]. cbv zeta.
    destruct (feed_urls_list_of cfg) as [|f' fs'] eqn:Hf'; [congruence|].
    rewrite Ht. cbn [negb]. unfold bind at 1. rewrite Hc. reflexivity.
  - right. split; [discriminate|].
    rewrite (lambda_handler_run cfg w st (log st evs) (p :: ps) urls Hready Hc)
      by discriminate.
    unfold log. cbn [table trace]. now rewrite <- !app_assoc.
Qed.


(** X2: when the AWS clients are not initialised, no feed is configured or
    every topic level is empty, the handler returns at once: no feed is
    fetched, the store is neither read nor written, and nothing is sent. *)
Theorem early_exit_calls_nothing (cfg : Config) (w : World) (st : State) :
  aws_clients cfg = false
  \/ feed_urls_list_of cfg = []
  \/ any_topics (topic_hierarchy_of cfg) = false ->
  exists response,
    lambda_handler cfg w st = (Returns response, st)
    /\ statusCode response = (if aws_clients cfg then 200%Z else 500%Z)
    /\ body response =
       (if negb (aws_clients cfg) then lit "AWS Client initialization failed."
        else match feed_urls_list_of cfg with
             | [] => lit "RSS_FEED_URLS not set"
             | _ :: _ => lit "All topic environments are empty."
             end).
Proof.
  intros H. unfold lambda_handler.
  destruct (aws_clients cfg); cbn [negb]; [|eexists; repeat split].
  cbv zeta. destruct (feed_urls_list_of cfg) as [|f fs]; [eexists; repeat split|].
  destruct H as [H|[H|H]]; try discriminate.
  rewrite H. cbn [negb]. eexists. repeat split.
Qed.

Lemma early_exit_calls_nothing_witness :
  let cfg := {| TEAMS_WEBHOOK_URL := None;
                aws_clients := true;
                MAX_ARTICLES_TO_PROCESS_int := None;
                RSS_FEED_URLS_ENV := lit " , ,";
                TOPICS_L0_DOMAIN_ENV := lit "Robotics";
                TOPICS_L1_APPROACH_ENV := [];
                TOPICS_L2_TASK_ENV := [];
                TOPICS_L3_MODALITY_ENV := [];
                TOPICS_L4_APPLICATION_ENV := [];
                TOPICS_L5_ENVIRONMENT_ENV := [];
                TOPICS_L6_CHALLENGE_ENV := [] |} in
  exists response,
    lambda_handler cfg twin_world example_state = (Returns response, example_state)
    /\ statusCode response = 200%Z
    /\ body response = lit "RSS_FEED_URLS not set".
Proof.
  intros cfg.
  apply (early_exit_calls_nothing cfg twin_world example_state).
  right. left. reflexivity.
Defined.

(** X3: when no new article is found, the handler returns status 200 with
    the body "No new articles to analyze" after the collection alone: the
    model is not called, nothing is posted and nothing is marked. *)
Theorem empty_batch_stops_the_run (cfg : Config) (w : World) (st st1 : State)
    (urls : list str) :
  config_ready cfg ->
  collect_unprocessed_papers w (feed_urls_list_of cfg)
    (limit_per_feed_of (max_to_process_of cfg) (feed_urls_list_of cfg)) st
  = (Returns ([], urls), st1) ->
  urls = []
  /\ lambda_handler cfg w st
     = (Returns {| statusCode := 200; body := lit "No new articles to analyze" |},
        st1)
  /\ table st1 = table st
  /\ exists evs, trace st1 = trace st ++ evs
                 /\ forallb is_collect_event evs = true.
Proof.
  intros (Haws & Hf & Ht) Hc.
  destruct (collect_run w (feed_urls_list_of cfg)
              (limit_per_feed_of (max_to_process_of cfg) (feed_urls_list_of cfg))
              st) as [evs [Hc' Hevs]].
  rewrite Hc in Hc'. injection Hc' as Hp Hu ->.
  split.
  { rewrite Hu. symmetry in Hp. apply map_eq_nil in Hp. now rewrite Hp. }
  split.
  { unfold lambda_handler. rewrite Haws. cbn [negb]. cbv zeta.
    destruct (feed_urls_list_of cfg) as [|f fs]; [congruence|].
    rewrite Ht. cbn [negb]. unfold bind at 1. rewrite Hc. reflexivity. }
  split; [reflexivity|]. exists evs. split; [reflexivity | exact Hevs].
Qed.

Lemma empty_batch_stops_the_run_witness :
  let w := example_world (Raises ClientError) (Returns 200%Z) in
  let st := {| table := list_to_set
                          (List.map entry_link
                             (example_entries_A ++ example_entries_B));
               trace := [] |} in
  exists st1,
    lambda_handler example_config w st
    = (Returns {| statusCode := 200; body := lit "No new articles to analyze" |},
       st1)
    /\ table st1 = table st.
Proof.
  intros w st.
  destruct (collect_run w (feed_urls_list_of example_config)
              (limit_per_feed_of (max_to_process_of example_config)
                 (feed_urls_list_of example_config)) st) as [evs [Hc _]].
  assert (Hb : batch w (table st)
                 (limit_per_feed_of (max_to_process_of example_config)
                    (feed_urls_list_of example_config))
                 (feed_urls_list_of example_config) = [])
    by (vm_compute; reflexivity).
  rewrite Hb in Hc.
  assert (Hready : config_ready example_config).
  { split; [reflexivity|]. split; [vm_compute; discriminate | reflexivity]. }
  destruct (empty_batch_stops_the_run example_config w st _ _ Hready Hc)
    as (_ & Hrun & Htbl & _).
  eexists. split; [exact Hrun | exact Htbl].
Defined.

(** ** The Collector *)




Lemma batch_app (w : World) (tbl : gset str) (limit : Z) (a b : list str) :
  batch w tbl limit (a ++ b) = batch w tbl limit a ++ batch w tbl limit b.
Proof. unfold batch. apply flat_map_app. Qed.

Lemma unusable_entries (w : World) (feed_url : str) :
  feed_unusable w feed_url -> usable_entries w feed_url = [].
Proof.
  unfold usable_entries.
  intros [[e ->] | [[entries ->] | ->]]; reflexivity.
Qed.

(** X5: a feed whose fetch raises, that is malformed (bozo) or that has no
    entry is skipped and does not disturb the others: the candidates and the
    mark-list are those of the list of feeds without it. *)
Theorem broken_feed_is_skipped (w : World) (before after : list str)
    (broken : str) (limit : Z) (st : State) :
  feed_unusable w broken ->
  exists papers urls st1 st2,
    collect_unprocessed_papers w (before ++ broken :: after) limit st
    = (Returns (papers, urls), st1)
    /\ collect_unprocessed_papers w (before ++ after) limit st
       = (Returns (papers, urls), st2).
Proof.
  intros Hb.
  destruct (collect_run w (before ++ broken :: after) limit st) as [evs [H _]].
  destruct (collect_run w (before ++ after) limit st) as [evs' [H' _]].
  assert (Heq : batch w (table st) limit (before ++ broken :: after)
                = batch w (table st) limit (before ++ after)).
  { rewrite !batch_app. f_equal.
    change (broken :: after) with ([broken] ++ after). rewrite batch_app.
    unfold batch at 1. simpl. unfold batch_of_feed.
    rewrite (unusable_entries w broken Hb). simpl. now rewrite take_nil. }
  rewrite Heq in H. eexists _, _, _, _. split; [exact H | exact H'].
Qed.

Lemma broken_feed_is_skipped_witness :
  let w := example_world (Raises ClientError) (Returns 200%Z) in
  exists papers urls st1 st2,
    collect_unprocessed_papers w ([lit "A"] ++ lit "C" :: [lit "B"]) 10
      example_state = (Returns (papers, urls), st1)
    /\ collect_unprocessed_papers w ([lit "A"] ++ [lit "B"]) 10 example_state
       = (Returns (papers, urls), st2).
Proof.
  intros w.
  apply (broken_feed_is_skipped w [lit "A"] [lit "B"] (lit "C") 10 example_state).
  left. exists ConnectionError. reflexivity.
Defined.

(** X6: once a run has marked its mark-list, a later collection over the
    same feeds does not return an identifier of that list again, provided
    its write and its lookup succeed. *)
Theorem marked_is_not_collected_again (w : World) (feed_urls : list str)
    (limit limit' : Z) (st st1 st1' st2 st3 : State)
    (papers papers' : list CandidatePaper) (urls urls' : list str) (u : str) :
  collect_unprocessed_papers w feed_urls limit st = (Returns (papers, urls), st1) ->
  table st1' = table st1 ->
  mark_all w urls st1' = (Returns tt, st2) ->
  collect_unprocessed_papers w feed_urls limit' st2
  = (Returns (papers', urls'), st3) ->
  In u urls ->
  put_item_error w u = None ->
  get_item_error w u = None ->
  ~ In u urls' /\ ~ In u (List.map paper_url papers').
Proof.
  intros Hc Ht Hm Hc' Hin Hput Hget.
  rewrite mark_all_run in Hm. injection Hm as <-.
  apply collect_urls in Hc' as (-> & -> & _). cbn [table].
  rewrite map_url_candidates.
  assert (Hnot : ~ In u (List.map entry_link
                           (batch w (marked_all w urls (table st1')) limit'
                              feed_urls))).
  { intros H. apply in_map_iff in H as [e [<- He]].
    apply batch_new in He. unfold is_new, seen in He. rewrite Hget in He.
    rewrite bool_decide_eq_true_2 in He; [discriminate|].
    apply elem_of_marked_all. right. split; assumption. }
  split; exact Hnot.
Qed.

Lemma marked_is_not_collected_again_witness :
  let w := example_world (Raises ClientError) (Returns 200%Z) in
  let u := entry_link (example_entry "b1") in
  exists papers urls st1 st2 papers' urls' st3,
    collect_unprocessed_papers w [lit "A"; lit "B"] 10 example_state
    = (Returns (papers, urls), st1)
    /\ mark_all w urls st1 = (Returns tt, st2)
    /\ collect_unprocessed_papers w [lit "A"; lit "B"] 10 st2
       = (Returns (papers', urls'), st3)
    /\ In u urls
    /\ ~ In u urls'.
Proof.
  intros w u.
  destruct (collect_run w [lit "A"; lit "B"] 10 example_state) as [evs [Hc _]].
  pose proof (mark_all_run w
                (List.map entry_link
                   (batch w (table example_state) 10 [lit "A"; lit "B"]))
                (log example_state evs)) as Hm.
  match type of Hm with _ = (_, ?s) => set (st2 := s) in * end.
  destruct (collect_run w [lit "A"; lit "B"] 10 st2) as [evs' [Hc' _]].
  assert (Hin : In u (List.map entry_link
                        (batch w (table example_state) 10 [lit "A"; lit "B"])))
    by (apply In_existsb_str; vm_compute; reflexivity).
  eexists _, _, _, _, _, _, _.
  split; [exact Hc|]. split; [exact Hm|]. split; [exact Hc'|].
  split; [exact Hin|].
  exact (proj1 (marked_is_not_collected_again w [lit "A"; lit "B"] 10 10
                  example_state _ _ _ _ _ _ _ _ u
                  Hc eq_refl Hm Hc' Hin eq_refl eq_refl)).
Defined.

(** ** The Selector *)

(** X7: an error of the Bedrock call or of the envelope of its response is
    not swallowed: an exception of [invoke_model], bytes that do not decode
    ([UnicodeDecodeError]), any error of [json.loads] on the body, a body
    without [content] ([KeyError]) or with an empty [content]
    ([IndexError]) make [analyze_papers_with_bedrock] raise that same
    exception; in every case the model was called once and the table is
    untouched. *)
Theorem selector_propagates_call_errors (w : World)
    (papers : list CandidatePaper) (t : TopicHierarchy) (st : State) :
  (exists o, analyze_papers_with_bedrock w papers t st
             = (o, log st [EvInvokeModel papers]))
  /\ (forall e,
        result_text_of w papers t = Raises e ->
        fst (analyze_papers_with_bedrock w papers t st) = Raises e)
  /\ (forall e,
        invoke_model w papers t = Raises e ->
        result_text_of w papers t = Raises e)
  /\ (invoke_model w papers t = Returns Undecodable ->
      result_text_of w papers t = Raises UnicodeDecodeError)
  /\ (forall text e,
        invoke_model w papers t = Returns (Decoded text) ->
        json_loads_or_raise w text = Raises e ->
        result_text_of w papers t = Raises e)
  /\ (forall text d,
        invoke_model w papers t = Returns (Decoded text) ->
        json_loads_or_raise w text = Returns (PDict d) ->
        dict_get (lit "content") d = None ->
        result_text_of w papers t = Raises KeyError)
  /\ (forall text d,
        invoke_model w papers t = Returns (Decoded text) ->
        json_loads_or_raise w text = Returns (PDict d) ->
        dict_get (lit "content") d = Some (PList []) ->
        result_text_of w papers t = Raises IndexError).
Proof.
  rewrite analyze_run. cbn [fst]. rewrite analysis_of_text.
  unfold result_text_of.
  split; [eexists; reflexivity|].
  split; [intros e ->; reflexivity|].
  split; [intros e ->; reflexivity|].
  split; [intros ->; reflexivity|].
  split; [intros text e Hi Hj; rewrite Hi; cbn [obind json_loads_body];
          rewrite Hj; reflexivity|].
  split; intros text d Hi Hj Hc; rewrite Hi; cbn [obind json_loads_body];
    rewrite Hj; cbn [obind py_getitem]; rewrite Hc; reflexivity.
Qed.

(** X8: whatever the Selector returns is an object whose [selected_papers]
    is a list, so that the handler's [get] never fails and its
    [selected_papers] is that list. *)
Theorem selector_result_shape (w : World) (result_text result : pyval) :
  parse_result_text w result_text = Returns result ->
  exists d l,
    result = PDict d
    /\ dict_get (lit "selected_papers") d = Some (PList l)
    /\ selected_of (Returns result) = PList l.
Proof.
  unfold parse_result_text.
  assert (He : exists d l,
            empty_selection = PDict d
            /\ dict_get (lit "selected_papers") d = Some (PList l)
            /\ selected_of (Returns empty_selection) = PList l)
    by (eexists _, _; repeat split).
  destruct (loads_result_text w result_text) as [v|e]; cbn [obind otry].
  - destruct (validate_analysis_data v) as [r|e] eqn:Hv; cbn [otry].
    + intros [= <-].
      apply validate_returns in Hv as [->|(d & l & -> & Hg & ->)]; [exact He|].
      exists d, l. split; [reflexivity|]. split; [exact Hg|].
      unfold selected_of. cbn [py_get]. now rewrite Hg.
    + destruct (is_JSONDecodeError e); [|discriminate]. intros [= <-]. exact He.
  - destruct (is_JSONDecodeError e); [|discriminate]. intros [= <-]. exact He.
Qed.

Lemma selector_result_shape_witness :
  let w := example_world (Raises ClientError) (Returns 200%Z) in
  exists d l,
    parse_result_text w (PStr four_papers_text) = Returns (PDict d)
    /\ dict_get (lit "selected_papers") d = Some (PList l)
    /\ selected_of (Returns (PDict d)) = PList l.
Proof.
  intros w.
  assert (H : exists r, parse_result_text w (PStr four_papers_text) = Returns r)
    by (eexists; vm_compute; reflexivity).
  destruct H as [r Hr].
  destruct (selector_result_shape _ _ _ Hr) as (d & l & -> & Hg & Hs).
  exists d, l. repeat split; assumption.
Defined.

(** X9: a response text that is valid JSON but neither an object, a list nor
    a string ([null], a boolean, a number) is not turned into the empty
    selection: the membership test raises [TypeError], which leaves the
    Selector; the handler then goes on with no selection. *)
Theorem scalar_response_raises (w : World) (result_text v : pyval) :
  loads_result_text w result_text = Returns v ->
  is_scalar v = true ->
  parse_result_text w result_text = Raises TypeError
  /\ selected_of (Raises TypeError) = PList [].
Proof.
  intros Hl Hs. split; [|reflexivity].
  unfold parse_result_text. rewrite Hl. cbn [obind].
  destruct v; try discriminate; reflexivity.
Qed.

Lemma scalar_response_raises_witness :
  let w := example_world (Raises ClientError) (Returns 200%Z) in
  loads_result_text w (PStr (lit "null")) = Returns PNone
  /\ parse_result_text w (PStr (lit "null")) = Raises TypeError.
Proof.
  intros w.
  assert (H : loads_result_text w (PStr (lit "null")) = Returns PNone)
    by (vm_compute; reflexivity).
  split; [exact H|].
  exact (proj1 (scalar_response_raises _ _ _ H eq_refl)).
Defined.

(** X10: a [result_text] that is not a string (the [text] field of the
    envelope holding a number, a list, an object or [null]) always makes the
    Selector raise, and never [JSONDecodeError]. *)
Theorem non_string_text_raises (w : World) (result_text : pyval) :
  (forall s, result_text <> PStr s) ->
  exists e, parse_result_text w result_text = Raises e
            /\ is_JSONDecodeError e = false.
Proof.
  intros Hns. unfold parse_result_text, loads_result_text.
  destruct result_text as [| b | n | s | l | d]; cbn [py_contains obind otry].
  - exists TypeError. split; reflexivity.
  - exists TypeError. split; reflexivity.
  - exists TypeError. split; reflexivity.
  - exfalso. exact (Hns s eq_refl).
  - destruct (existsb (pyval_is_str [123]) l); cbn [obind andb].
    + destruct (existsb (pyval_is_str [125]) l); cbn [obind otry];
        [exists AttributeError | exists TypeError]; split; reflexivity.
    + exists TypeError. split; reflexivity.
  - destruct (dict_get [123] d); cbn [obind andb].
    + destruct (dict_get [125] d); cbn [obind otry];
        [exists AttributeError | exists TypeError]; split; reflexivity.
    + exists TypeError. split; reflexivity.
Qed.

Lemma non_string_text_raises_witness :
  exists e, parse_result_text twin_world (PList [PStr [123]; PStr [125]])
            = Raises e
            /\ is_JSONDecodeError e = false.
Proof.
  apply (non_string_text_raises twin_world (PList [PStr [123]; PStr [125]])).
  intros s. discriminate.
Defined.

(** ** The Notifier *)

(** X11: [post_summary_to_teams] sends at most one request, only to the
    configured webhook, which is not empty, and only with the card built
    from the selection: any request found in the trace after the call and
    not before it is that one. *)
Theorem only_the_card_is_posted (cfg : Config) (w : World) (sel : pyval)
    (st : State) (webhook : str) (payload : pyval) :
  In (EvPost webhook payload) (trace (snd (post_summary_to_teams cfg w sel st))) ->
  ~ In (EvPost webhook payload) (trace st) ->
  TEAMS_WEBHOOK_URL cfg = Some webhook
  /\ webhook <> []
  /\ exists card_body,
       card_of w sel = Returns card_body
       /\ payload = card_payload card_body.
Proof.
  rewrite post_run. cbn [snd]. unfold log. cbn [trace].
  intros Hin Hnot. apply in_app_iff in Hin as [Hin|Hin]; [contradiction|].
  unfold post_events in Hin. destruct Hin as [Hin|Hin]; [discriminate|].
  destruct (card_of w sel) as [card_body|e]; [|destruct Hin].
  unfold webhook_of in Hin.
  destruct (TEAMS_WEBHOOK_URL cfg) as [[|c url]|]; try destruct Hin.
  - injection H as <- <-. split; [reflexivity|]. split; [discriminate|].
    exists card_body. split; reflexivity.
  - destruct H.
Qed.

Lemma only_the_card_is_posted_witness :
  let w := example_world (Raises ClientError) (Returns 202%Z) in
  let webhook := lit "https://example.webhook.office.com/hook" in
  exists payload card_body,
    In (EvPost webhook payload)
       (trace (snd (post_summary_to_teams example_config w
                      (PList example_selected) example_state)))
    /\ card_of w (PList example_selected) = Returns card_body
    /\ payload = card_payload card_body.
Proof.
  intros w webhook.
  assert (Hc : exists card_body, card_of w (PList example_selected)
                                 = Returns card_body)
    by (eexists; vm_compute; reflexivity).
  destruct Hc as [card_body Hc].
  assert (Hin : In (EvPost webhook (card_payload card_body))
                   (trace (snd (post_summary_to_teams example_config w
                                  (PList example_selected) example_state)))).
  { rewrite post_run. cbn [snd]. unfold post_events. rewrite Hc.
    simpl. right. left. reflexivity. }
  exists (card_payload card_body), card_body.
  split; [exact Hin|].
  destruct (only_the_card_is_posted example_config w (PList example_selected)
              example_state webhook (card_payload card_body) Hin
              ltac:(simpl; tauto))
    as (_ & _ & cb & Hcb & Hp).
  split; [exact Hc | reflexivity].
Defined.

Lemma paper_elements_not_dict (w : World) (i : nat) (paper : pyval) :
  is_dict paper = false -> paper_elements w i paper = Raises AttributeError.
Proof. destruct paper; try discriminate; reflexivity. Qed.

Lemma card_body_loop_not_dict (w : World) (papers : list pyval) :
  forall i acc,
    existsb (fun p => negb (is_dict p)) papers = true ->
    exists e, card_body_loop w i papers acc = Raises e.
Proof.
  induction papers as [|p papers IH]; intros i acc H; [discriminate|].
  simpl in H. simpl card_body_loop.
  destruct (is_dict p) eqn:Hp; simpl in H.
  - destruct (paper_elements w i p) as [els|e]; cbn [obind]; [|eauto].
    now apply IH.
  - rewrite (paper_elements_not_dict w i p Hp). cbn [obind]. eauto.
Qed.

(** X12: when an element of the selection is not an object (a string, a
    number, a list, [null]), [post_summary_to_teams] raises while it builds
    the card and sends nothing, whatever the webhook and the other
    elements. *)
Theorem malformed_selection_is_not_posted (cfg : Config) (w : World)
    (papers : list pyval) (st : State) :
  existsb (fun p => negb (is_dict p)) papers = true ->
  exists e,
    post_summary_to_teams cfg w (PList papers) st
    = (Raises e, log st [EvNotify (PList papers)]).
Proof.
  intros H. rewrite post_run. unfold post_result, post_events, card_of.
  cbn [py_iter obind].
  destruct (card_body_loop_not_dict w papers 0 [] H) as [e He].
  rewrite He. exists e. reflexivity.
Qed.

Lemma malformed_selection_is_not_posted_witness :
  exists e,
    post_summary_to_teams example_config
      (example_world (Raises ClientError) (Returns 200%Z))
      (PList (example_selected ++ [PStr (lit "u3")])) example_state
    = (Raises e,
       log example_state
         [EvNotify (PList (example_selected ++ [PStr (lit "u3")]))]).
Proof.
  apply malformed_selection_is_not_posted. reflexivity.
Defined.

Lemma paper_elements_length (w : World) (i : nat) (paper : pyval)
    (elements : list pyval) :
  paper_elements w i paper = Returns elements ->
  length elements = (if (0 <? i)%nat then 4 else 3)%nat.
Proof.
  unfold paper_elements.
  repeat match goal with
  | |- context [obind ?o _] =>
      match o with
      | Returns _ => cbn [obind]
      | _ => destruct o; cbn [obind]; [|discriminate]
      end
  end.
  intros [= <-]. destruct (0 <? i)%nat; reflexivity.
Qed.

Lemma card_body_loop_length (w : World) (papers : list pyval) :
  forall i acc card_body,
    card_body_loop w i papers acc = Returns card_body ->
    (length card_body + (if (0 <? i)%nat then 0 else
                           match papers with [] => 0 | _ => 1 end)
     = length acc + 4 * length papers)%nat.
Proof.
  induction papers as [|p papers IH]; intros i acc card_body; simpl card_body_loop.
  - intros [= <-]. destruct (0 <? i)%nat; simpl; lia.
  - destruct (paper_elements w i p) as [els|e] eqn:He; cbn [obind]; [|discriminate].
    apply paper_elements_length in He.
    intros H. apply IH in H. rewrite length_app in H.
    change (0 <? S i)%nat with true in H. cbv iota in H.
    destruct (0 <? i)%nat; simpl length; lia.
Qed.

(** X13: whenever the card is built for n >= 1 papers, its body has exactly
    4n - 1 elements: three per paper and a separator between consecutive
    papers; for no paper the body is empty. *)
Theorem card_body_size (w : World) (papers : list pyval)
    (card_body : list pyval) :
  card_body_loop w 0 papers [] = Returns card_body ->
  length card_body = (4 * length papers - 1)%nat.
Proof.
  intros H. apply card_body_loop_length in H.
  change (0 <? 0)%nat with false in H. cbv iota in H.
  destruct papers; simpl in *; lia.
Qed.

Lemma card_body_size_witness :
  exists card_body,
    card_body_loop (example_world (Raises ClientError) (Returns 200%Z)) 0
      example_selected [] = Returns card_body
    /\ length card_body = 7%nat.
Proof.
  assert (H : exists card_body,
            card_body_loop (example_world (Raises ClientError) (Returns 200%Z)) 0
              example_selected [] = Returns card_body)
    by (eexists; vm_compute; reflexivity).
  destruct H as [card_body H]. exists card_body. split; [exact H|].
  exact (card_body_size _ _ _ H).
Defined.

(** ** Configuration and quota *)

Lemma truncate_abstract_cases (s : str) :
  truncate_abstract s =
  if (length s <=? 1500)%nat then s else take 1500 s ++ lit "... (truncated)".
Proof.
  unfold truncate_abstract, py_slice, slice_bound, ABSTRACT_TRUNCATE_LENGTH.
  change (0 <? 0)%Z with false. change (1500 <? 0)%Z with false. cbv iota.
  rewrite (Z.min_l 0) by lia. change (Z.to_nat 0) with 0%nat. rewrite drop_0.
  rewrite Z.sub_0_r.
  destruct (Nat.leb_spec (length s) 1500) as [Hle|Hgt].
  - destruct (Z.gtb_spec (Z.of_nat (length s)) 1500); [lia|].
    rewrite Z.min_r by lia. rewrite Nat2Z.id. now apply take_ge.
  - destruct (Z.gtb_spec (Z.of_nat (length s)) 1500); [|lia].
    rewrite Z.min_l by lia. reflexivity.
Qed.

(** X14: the abstract handed to the model is bounded whatever the feed
    sends: at most 1515 characters, never longer than the summary plus the
    marker, and its first 1500 characters are those of the summary. *)
Theorem abstract_is_bounded (entry : Entry) :
  let abstract := paper_abstract (candidate_of_entry entry) in
  (length abstract <= 1515)%nat
  /\ (length abstract <= length (entry_summary entry) + 15)%nat
  /\ take 1500 abstract = take 1500 (entry_summary entry).
Proof.
  cbn zeta. unfold candidate_of_entry. cbn [paper_abstract].
  rewrite truncate_abstract_cases. set (s := entry_summary entry).
  destruct (Nat.leb_spec (length s) 1500) as [Hle|Hgt].
  - repeat split; lia.
  - assert (Hl : length (take 1500 s) = 1500%nat)
      by (rewrite length_take; lia).
    rewrite length_app, Hl. change (length (lit "... (truncated)")) with 15%nat.
    repeat split; try lia.
    rewrite take_app_le by lia. rewrite take_take.
    f_equal.
Qed.

(** X15: with N >= 1 feeds and a cap M, the quota is at least 1 and the
    Collector never returns more than max(M, N) candidates: the cap is kept
    as soon as it is not smaller than the number of feeds. *)
Theorem batch_respects_the_cap (max_to_process : Z) (feed_urls : list str)
    (w : World) (st : State) :
  feed_urls <> [] ->
  let quota := limit_per_feed_of max_to_process feed_urls in
  (1 <= quota)%Z
  /\ exists papers urls st',
       collect_unprocessed_papers w feed_urls quota st
       = (Returns (papers, urls), st')
       /\ length urls = length papers
       /\ (Z.of_nat (length papers)
           <= Z.max max_to_process (Z.of_nat (length feed_urls)))%Z.
Proof.
  intros Hne quota.
  assert (Hn : (0 < Z.of_nat (length feed_urls))%Z)
    by (destruct feed_urls; [congruence | simpl; lia]).
  assert (Hq : quota = Z.max 1 (max_to_process / Z.of_nat (length feed_urls)))
    by (unfold quota, limit_per_feed_of; apply py_max_max).
  split; [lia|].
  destruct (collect_run w feed_urls quota st) as [evs [H _]].
  eexists _, _, _. split; [exact H|]. rewrite !length_map. split; [reflexivity|].
  pose proof (length_batch w (table st) quota feed_urls) as Hl.
  set (n := Z.of_nat (length feed_urls)) in *.
  pose proof (Z.mul_div_le max_to_process n Hn) as Hd.
  assert (Hb : (n * quota <= Z.max max_to_process n)%Z).
  { rewrite Hq. destruct (Z.max_spec 1 (max_to_process / n)) as [[_ ->]|[_ ->]]; lia. }
  assert (Hz : (Z.of_nat (length (batch w (table st) quota feed_urls))
                <= n * quota)%Z).
  { unfold n. rewrite <- (Z2Nat.id quota) at 2 by lia.
    rewrite <- Nat2Z.inj_mul. lia. }
  lia.
Qed.

Lemma batch_respects_the_cap_witness :
  let w := example_world (Raises ClientError) (Returns 200%Z) in
  let quota := limit_per_feed_of 3 [lit "A"; lit "B"] in
  (1 <= quota)%Z
  /\ exists papers urls st',
       collect_unprocessed_papers w [lit "A"; lit "B"] quota example_state
       = (Returns (papers, urls), st')
       /\ length urls = length papers
       /\ (Z.of_nat (length papers) <= Z.max 3 (Z.of_nat 2))%Z.
Proof.
  intros w.
  apply (batch_respects_the_cap 3 [lit "A"; lit "B"] w example_state).
  discriminate.
Defined.

(** *** The comma separated lists of the configuration *)

Lemma py_split_comma_cons (s : str) :
  exists f fs, py_split_comma s = f :: fs.
Proof.
  induction s as [|c r [f [fs IH]]]; simpl; [eauto|].
  rewrite IH. destruct (c =? 44); eauto.
Qed.

Lemma py_split_comma_no_comma (s : str) :
  forall f, In f (py_split_comma s) -> ~ In 44 f.
Proof.
  induction s as [|c r IH]; simpl.
  - intros f [<-|[]] [].
  - destruct (py_split_comma r) as [|g gs] eqn:Hr.
    + intros f [<-|[]] [].
    + destruct (N.eqb_spec c 44) as [->|Hc].
      * intros f [<-|Hin]; [intros []|]. now apply IH.
      * intros f [<-|Hin].
        -- intros [Heq|Hin]; [congruence|]. apply (IH g); [now left | assumption].
        -- apply IH. now right.
Qed.

Lemma py_split_comma_app (a b : str) :
  py_split_comma (a ++ 44 :: b) = py_split_comma a ++ py_split_comma b.
Proof.
  induction a as [|c r IH]; simpl.
  - destruct (py_split_comma_cons b) as [f [fs ->]]. reflexivity.
  - rewrite IH. destruct (py_split_comma_cons r) as [f [fs ->]]. simpl.
    destruct (c =? 44); reflexivity.
Qed.

Lemma lstrip_suffix (s : str) : exists ws, s = ws ++ lstrip s.
Proof.
  induction s as [|c r [ws IH]]; simpl; [exists []; reflexivity|].
  destruct (py_isspace c).
  - exists (c :: ws). simpl. now f_equal.
  - exists []. reflexivity.
Qed.

Lemma lstrip_head (s : str) (c : N) (r : str) :
  lstrip s = c :: r -> py_isspace c = false.
Proof.
  induction s as [|d t IH]; simpl; [discriminate|].
  destruct (py_isspace d) eqn:Hd; [exact IH|].
  intros [= <- <-]. exact Hd.
Qed.

Lemma lstrip_fixed (s : str) (c : N) (r : str) :
  s = c :: r -> py_isspace c = false -> lstrip s = s.
Proof. intros -> H. simpl. now rewrite H. Qed.

Lemma lstrip_keeps_last (s : str) (c : N) (r : str) :
  s = r ++ [c] -> py_isspace c = false -> exists r', lstrip s = r' ++ [c].
Proof.
  revert r. induction s as [|d t IH]; intros r Hs Hc.
  - destruct r; discriminate.
  - simpl. destruct (py_isspace d) eqn:Hd; [|exists r; exact Hs].
    destruct r as [|d' r'].
    + injection Hs as -> _. congruence.
    + injection Hs as _ Ht. exact (IH r' Ht Hc).
Qed.

Lemma py_strip_sub (s : str) (c : N) : In c (py_strip s) -> In c s.
Proof.
  unfold py_strip. intros H. apply in_rev in H.
  destruct (lstrip_suffix (rev (lstrip s))) as [ws Hw].
  assert (H1 : In c (rev (lstrip s))) by (rewrite Hw; apply in_or_app; now right).
  apply in_rev in H1.
  destruct (lstrip_suffix s) as [ws' Hw'].
  rewrite Hw'. apply in_or_app. now right.
Qed.

(** The first and the last character of a stripped string are not white
    space. *)
Lemma py_strip_ends (s : str) :
  (forall c r, py_strip s = c :: r -> py_isspace c = false)
  /\ (forall c r, py_strip s = r ++ [c] -> py_isspace c = false).
Proof.
  unfold py_strip. split; intros c r H.
  - apply (f_equal (@rev N)) in H. rewrite rev_involutive in H.
    change (c :: r) with ([c] ++ r) in H. rewrite rev_app_distr in H.
    simpl in H.
    destruct (lstrip (rev (lstrip s))) as [|d t] eqn:Hl.
    { destruct (rev r); discriminate. }
    pose proof (lstrip_head _ _ _ Hl) as Hd.
    destruct (lstrip s) as [|x xs] eqn:Hx.
    { simpl in Hl. discriminate. }
    pose proof (lstrip_head _ _ _ Hx) as Hxs.
    assert (Hrev : rev (x :: xs) = rev xs ++ [x]) by reflexivity.
    destruct (lstrip_keeps_last _ _ _ Hrev Hxs) as [r' Hr'].
    rewrite Hl in Hr'. rewrite Hr' in H.
    apply app_inj_tail in H as [_ ->]. exact Hxs.
  - apply (f_equal (@rev N)) in H. rewrite rev_involutive in H.
    rewrite rev_app_distr in H. simpl in H.
    exact (lstrip_head _ _ _ H).
Qed.

Lemma py_strip_idempotent (s : str) : py_strip (py_strip s) = py_strip s.
Proof.
  destruct (py_strip s) as [|c r] eqn:Hs; [reflexivity|].
  destruct (py_strip_ends s) as [Hfirst Hlast].
  pose proof (Hfirst c r Hs) as Hc.
  unfold py_strip at 1.
  rewrite (lstrip_fixed (c :: r) c r eq_refl Hc).
  destruct (rev (c :: r)) as [|d t] eqn:Hrev.
  { apply (f_equal (@length N)) in Hrev. rewrite length_rev in Hrev. discriminate. }
  assert (Hd : py_isspace d = false).
  { apply (Hlast d (rev t)). rewrite Hs.
    rewrite <- (rev_involutive (c :: r)), Hrev. reflexivity. }
  rewrite (lstrip_fixed (d :: t) d t eq_refl Hd).
  rewrite <- Hrev. apply rev_involutive.
Qed.

(** X16: every element of a list read from the configuration by
    [parse_topics] (and, by the same comprehension, every feed URL) is not
    empty, has no comma, neither starts nor ends with white space, and is
    left as it is by a further [strip]. *)
Theorem parse_topics_elements (env_var : str) (t : str) :
  In t (parse_topics env_var) ->
  t <> []
  /\ ~ In 44 t
  /\ (forall c r, t = c :: r -> py_isspace c = false)
  /\ (forall c r, t = r ++ [c] -> py_isspace c = false)
  /\ py_strip t = t.
Proof.
  unfold parse_topics. intros H.
  apply in_map_iff in H as [f [<- Hf]].
  apply filter_In in Hf as [Hin Htruthy].
  split; [|split; [|split; [|split]]].
  - intros Hnil. rewrite Hnil in Htruthy. discriminate.
  - intros Hc. apply py_strip_sub in Hc.
    exact (py_split_comma_no_comma env_var f Hin Hc).
  - apply py_strip_ends.
  - apply py_strip_ends.
  - apply py_strip_idempotent.
Qed.

Lemma parse_topics_elements_witness :
  let t := lit "graph neural network" in
  t <> []
  /\ ~ In 44 t
  /\ (forall c r, t = c :: r -> py_isspace c = false)
  /\ (forall c r, t = r ++ [c] -> py_isspace c = false)
  /\ py_strip t = t.
Proof.
  apply (parse_topics_elements (lit " LLM , graph neural network ,, ")).
  vm_compute. right. left. reflexivity.
Defined.

(** X17: [parse_topics] works field by field: the list read from a, a comma
    and b is the list read from a followed by the one read from b, so that
    a leading or a trailing comma and a blank field add nothing. *)
Theorem parse_topics_concatenates (a b : str) :
  parse_topics (a ++ 44 :: b) = parse_topics a ++ parse_topics b
  /\ parse_topics (44 :: b) = parse_topics b
  /\ parse_topics (a ++ [44]) = parse_topics a
  /\ (forallb py_isspace a = true -> parse_topics a = []).
Proof.
  assert (Happ : forall x y, parse_topics (x ++ 44 :: y)
                             = parse_topics x ++ parse_topics y).
  { intros x y. unfold parse_topics.
    rewrite py_split_comma_app, List.filter_app, List.map_app. reflexivity. }
  split; [apply Happ|]. split; [|split].
  - change (44 :: b) with ([] ++ 44 :: b). rewrite Happ. reflexivity.
  - rewrite Happ. change (parse_topics []) with (@nil str). apply app_nil_r.
  - intros Hws. unfold parse_topics.
    assert (Hsplit : py_split_comma a = [a]).
    { induction a as [|c r IH]; [reflexivity|].
      simpl in Hws. apply andb_prop in Hws as [Hc Hr].
      simpl. rewrite (IH Hr).
      destruct (N.eqb_spec c 44) as [->|_]; [discriminate Hc | reflexivity]. }
    rewrite Hsplit. simpl.
    assert (Hl : forall x, forallb py_isspace x = true -> lstrip x = []).
    { induction x as [|c r IH]; [reflexivity|]. simpl.
      intros H. apply andb_prop in H as [-> Hr]. now apply IH. }
    unfold py_strip. rewrite (Hl a Hws). reflexivity.
Qed.

(** ** What a run writes *)

Lemma batch_from_feeds (w : World) (tbl : gset str) (limit : Z)
    (feeds : list str) (e : Entry) :
  In e (batch w tbl limit feeds) ->
  exists feed_url,
    In feed_url feeds /\ In e (usable_entries w feed_url)
    /\ is_new w tbl e = true.
Proof.
  intros H. pose proof (batch_new w tbl limit feeds e H) as Hn.
  unfold batch in H. apply in_flat_map in H as [u [Hu He]].
  exists u. split; [exact Hu|]. split; [|exact Hn].
  unfold batch_of_feed in He.
  apply list_elem_of_In, elem_of_take in He as [i [He _]].
  apply list_elem_of_lookup_2, list_elem_of_In, filter_In in He. tauto.
Qed.

(** X18: the handler writes to the table only what the Collector returned:
    an identifier that is in the table after a run and was not before is the
    link of an entry of a well-formed feed of the configuration, is not
    reported as processed by the table of the start, and its write
    succeeded.  What the model answers and
    what Teams answers never add an identifier. *)
Theorem handler_marks_only_collected (cfg : Config) (w : World) (st : State) :
  exists response st',
    lambda_handler cfg w st = (Returns response, st')
    /\ forall u,
         u ∈ table st' ->
         u ∈ table st
         \/ (put_item_error w u = None
             /\ exists feed_url entries entry,
                  In feed_url (feed_urls_list_of cfg)
                  /\ feedparser_parse w feed_url = Feed false entries
                  /\ In entry entries
                  /\ entry_link entry = u
                  /\ fst (is_article_processed w u st) = Returns false).
Proof.
  destruct (lambda_handler_cases cfg w st)
    as [[_ (response & H & _)]
       | (_ & papers & urls & evs & _ & _ & Hp & Hu & [[_ H] | [_ H]])].
  - exists response, st. split; [exact H|]. intros u Hin. now left.
  - eexists _, _. split; [exact H|]. intros u Hin. now left.
  - eexists _, _. split; [exact H|]. cbn [table]. intros u Hin.
    apply elem_of_marked_all in Hin as [Hin | [Hin Hput]]; [now left|].
    right. split; [exact Hput|].
    rewrite Hu, Hp, map_url_candidates in Hin.
    apply in_map_iff in Hin as [entry [Hlink He]].
    apply batch_from_feeds in He as (feed_url & Hf & Hin & Hnew).
    rewrite is_article_processed_run. cbn [fst].
    unfold is_new in Hnew. rewrite Hlink in Hnew.
    apply negb_true_iff in Hnew. rewrite Hnew.
    unfold usable_entries in Hin.
    destruct (feedparser_parse w feed_url) as [e|[|] entries] eqn:Hfeed;
      try destruct Hin.
    exists feed_url, entries, entry. repeat split; assumption.
Qed.
